(** * nwbinspector: checks and utilities, embedded and verified

    A shallow embedding of [nwbinspector/checks/general.py] and
    [nwbinspector/utils.py], and of the check of [checks/ecephys.py] that
    the unit tests exercise.  Python values are modelled as follows:

    - [int] is [Z] (unbounded);
    - [str] is [string]; its characters are the code points 0..255, on which
      [str.lower] is closed and length preserving;
    - [float] is IEEE 754 binary64 (module [F64] below), and a numpy array
      is a list of floats;
    - an exception is the [Raised] branch of [outcome];
    - an object is its type name, its attribute table and its location;
    - an optional argument is an [option], [None] when it is left out. *)

From Stdlib Require Import ZArith List Bool Ascii String Lia.
From Stdlib Require Import DecimalString SpecFloat.
Import ListNotations.

Open Scope string_scope.
Open Scope Z_scope.

(** ** Exceptions *)

Inductive exn : Type :=
| AttributeError
| TypeError
| ValueError (msg : string)
| OverflowError
| ZeroDivisionError.

Inductive outcome (A : Type) : Type :=
| Returned (a : A)
| Raised (e : exn).

Arguments Returned {A} a.
Arguments Raised {A} e.

Definition bind {A B : Type} (x : outcome A) (k : A -> outcome B) : outcome B :=
  match x with
  | Returned a => k a
  | Raised e => Raised e
  end.

Notation "x <- c ;; k" := (bind c (fun x => k))
  (at level 61, c at next level, right associativity).

(** ** Python strings *)

Module PyStr.

Fixpoint mem (c : ascii) (chars : string) : bool :=
  match chars with
  | EmptyString => false
  | String d rest => Ascii.eqb c d || mem c rest
  end.

(** [sub in s] *)
Fixpoint contains (sub s : string) : bool :=
  prefix sub s ||
  match s with
  | EmptyString => false
  | String _ rest => contains sub rest
  end.

Fixpoint lstrip (chars s : string) : string :=
  match s with
  | EmptyString => EmptyString
  | String c rest => if mem c chars then lstrip chars rest else s
  end.

Fixpoint rstrip (chars s : string) : string :=
  match s with
  | EmptyString => EmptyString
  | String c rest =>
      match rstrip chars rest with
      | EmptyString => if mem c chars then EmptyString else String c EmptyString
      | r => String c r
      end
  end.

(** [s.strip(chars)] *)
Definition strip (chars s : string) : string := rstrip chars (lstrip chars s).

(** [str.lower] on one code point below 256: A-Z, and the upper-case
    letters of the Latin-1 block (all of 192..222 but the multiplication
    sign 215), move up by 32. *)
Definition lower_char (c : ascii) : ascii :=
  let n := nat_of_ascii c in
  if ((65 <=? n) && (n <=? 90))%nat then ascii_of_nat (n + 32)
  else if ((192 <=? n) && (n <=? 222) && negb (n =? 215))%nat
       then ascii_of_nat (n + 32)
  else c.

Fixpoint lower (s : string) : string :=
  match s with
  | EmptyString => EmptyString
  | String c rest => String (lower_char c) (lower rest)
  end.

(** [str.isspace] on one code point below 256. *)
Definition isspace_char (c : ascii) : bool :=
  let n := nat_of_ascii c in
  (((9 <=? n) && (n <=? 13)) || ((28 <=? n) && (n <=? 32))
   || (n =? 133) || (n =? 160))%nat.

Fixpoint all_chars (p : ascii -> bool) (s : string) : bool :=
  match s with
  | EmptyString => true
  | String c rest => p c && all_chars p rest
  end.

(** [x in l] for a list of strings. *)
Fixpoint in_list (x : string) (l : list string) : bool :=
  match l with
  | [] => false
  | y :: rest => String.eqb x y || in_list x rest
  end.

(** [n] copies of the character [c]. *)
Fixpoint replicate (n : nat) (c : ascii) : string :=
  match n with
  | O => EmptyString
  | S k => String c (replicate k c)
  end.

End PyStr.

(** ** Objects *)

Inductive pyval : Type :=
| PyNone
| PyStr (s : string).

Record pyobj : Type := mk_pyobj {
  type_name : string;                 (* type(obj).__name__ *)
  attrs : string -> option pyval;     (* attribute table *)
  obj_location : string               (* path of the parent, slash terminated *)
}.

Definition hasattr (o : pyobj) (a : string) : bool :=
  match attrs o a with
  | Some _ => true
  | None => false
  end.

Definition getattr (o : pyobj) (a : string) : outcome pyval :=
  match attrs o a with
  | Some v => Returned v
  | None => Raised AttributeError
  end.

(** ** Importance, severity and messages

    The constructors of [InspectorMessage] and the names of the two
    enumerations are the ones the checks and the unit tests use; every field
    but [message] has a default. *)

Inductive Importance : Type :=
| BEST_PRACTICE_SUGGESTION
| BEST_PRACTICE_VIOLATION
| CRITICAL.

Inductive Severity : Type :=
| NO_SEVERITY
| LOW
| HIGH.

Record InspectorMessage : Type := mk_message {
  message : string;
  severity : Severity;
  importance : option Importance;
  check_function_name : option string;
  object_type : option string;
  object_name : option string;
  location : option string
}.

(** [InspectorMessage(message=msg)] *)
Definition new_message (msg : string) : InspectorMessage :=
  mk_message msg NO_SEVERITY None None None None None.

(** What the registration reads off an inspected object. *)
Class Inspectable (O : Type) : Type := {
  type_name_of : O -> string;
  name_of : O -> option string;
  location_of : O -> string
}.

#[export] Instance pyobj_inspectable : Inspectable pyobj := {
  type_name_of := type_name;
  name_of := fun o => match attrs o "name" with
                      | Some (PyStr n) => Some n
                      | _ => None
                      end;
  location_of := obj_location
}.

Definition check_function (O : Type) : Type :=
  O -> outcome (option InspectorMessage).

(** Modelled from the spec: the decorator [register_check] of
    [register_checks.py], which is not among the sources.  A registered check
    returns what its body returns, with the provenance fields filled in from
    the inspected object and the importance inherited from the registration
    unless the body has set one itself. *)
Definition register_check {O : Type} `{Inspectable O} (imp : Importance)
    (fname : string) (body : check_function O) : check_function O :=
  fun o =>
    r <- body o ;;
    match r with
    | None => Returned None
    | Some m =>
        Returned (Some
          {| message := message m;
             severity := severity m;
             importance := Some (match importance m with
                                 | Some i => i
                                 | None => imp
                                 end);
             check_function_name := Some fname;
             object_type := Some (type_name_of o);
             object_name := name_of o;
             location := Some (location_of o) |})
    end.

(** ** checks/general.py *)

Definition COMMON_DESCRIPTION_PLACEHOLDERS : list string :=
  ["no description"; "no desc"; "none"].

(** [x in obj.name]: a [TypeError] when the name is [None]. *)
Definition str_in (x : string) (v : pyval) : outcome bool :=
  match v with
  | PyStr s => Returned (PyStr.contains x s)
  | PyNone => Raised TypeError
  end.

(** [any(x in v for x in xs)], left to right, stopping at the first hit. *)
Fixpoint any_in (xs : list string) (v : pyval) : outcome bool :=
  match xs with
  | [] => Returned false
  | x :: rest =>
      b <- str_in x v ;;
      if b then Returned true else any_in rest v
  end.

Definition check_name_slashes_body : check_function pyobj :=
  fun obj =>
    if hasattr obj "name" then
      name <- getattr obj "name" ;;
      b <- any_in ["/"; "\"] name ;;
      if b then Returned (Some (new_message "Object name contains slashes, ."))
      else Returned None
    else Returned None.

Definition check_name_slashes : check_function pyobj :=
  register_check CRITICAL "check_name_slashes" check_name_slashes_body.

Definition check_description_body : check_function pyobj :=
  fun obj =>
    let common_description_placeholders :=
      ["no description"; "no desc"; "none"] in
    if negb (hasattr obj "description") then Returned None
    else
      description <- getattr obj "description" ;;
      match description with
      | PyNone => Returned (Some (new_message "Description is missing."))
      | PyStr d =>
          if String.eqb (PyStr.strip " " d) "" then
            Returned (Some (new_message "Description is missing."))
          else if PyStr.in_list (PyStr.strip "." (PyStr.lower d))
                    common_description_placeholders then
            Returned (Some (new_message
              ("Description (" ++ d ++ ") is a placeholder.")))
          else Returned None
      end.

Definition check_description : check_function pyobj :=
  register_check BEST_PRACTICE_SUGGESTION "check_description"
    check_description_body.

(** ** Python floats: IEEE 754 binary64

    A float is NaN, an infinity, or [(-1)^neg * m * 2^e]; the zeros are the
    two floats with [m = 0].  Every operation returns the exact result,
    rounded to the nearest float, ties to the even mantissa. *)

Module F64.

Inductive float : Type :=
| NaN
| Inf (neg : bool)
| Fin (neg : bool) (m : N) (e : Z).

Definition zero : float := Fin false 0 0.

(** Quotient of [a] by [b > 0], rounded to the nearest integer, ties to
    even. *)
Definition rne_div (a b : Z) : Z :=
  let q := a / b in
  match 2 * (a mod b) ?= b with
  | Lt => q
  | Gt => q + 1
  | Eq => if Z.even q then q else q + 1
  end.

(** The float of mantissa [m] and exponent [e >= -1074]: an infinity from
    [2^1024] on; the mantissa [2^53], which rounding up can reach, is
    written with 53 bits. *)
Definition pack (neg : bool) (m e : Z) : float :=
  if 2 ^ 2098 <=? m * 2 ^ (e + 1074) then Inf neg
  else if m =? 2 ^ 53 then Fin neg (2 ^ 52) (e + 1)
  else Fin neg (Z.to_N m) e.

(** The exponent, counted from [-1074], of the float nearest to [a / b]:
    in units of [2^-1074], the least positive float, the quotient is
    [a * 2^1074 / b], and the mantissa keeps its 53 leading bits. *)
Definition round_exp (a b : Z) : Z :=
  Z.max 0 (Z.log2 (a * 2 ^ 1074 / b) - 52).

(** The float nearest to [(-1)^neg * a / b], for [a, b > 0]. *)
Definition round (neg : bool) (a b : Z) : float :=
  let E := round_exp a b in
  pack neg (rne_div (a * 2 ^ 1074) (b * 2 ^ E)) (E - 1074).

(** The float nearest to [z * 2^e]. *)
Definition of_scaled (z e : Z) : float :=
  if z =? 0 then zero
  else round (z <? 0) (Z.abs z * 2 ^ Z.max 0 e) (2 ^ Z.max 0 (- e)).

Definition of_Z (z : Z) : float := of_scaled z 0.

Definition signed (neg : bool) (m : N) : Z :=
  if neg then - Z.of_N m else Z.of_N m.

Definition is_nan (x : float) : bool :=
  match x with NaN => true | _ => false end.

Definition is_zero (x : float) : bool :=
  match x with Fin _ 0 _ => true | _ => false end.

(** A positive finite float. *)
Definition positive_finite (x : float) : bool :=
  match x with
  | Fin false m _ => negb (m =? 0)%N
  | _ => false
  end.

Definition opp (x : float) : float :=
  match x with
  | NaN => NaN
  | Inf s => Inf (negb s)
  | Fin s m e => Fin (negb s) m e
  end.

Definition abs (x : float) : float :=
  match x with
  | NaN => NaN
  | Inf _ => Inf false
  | Fin _ m e => Fin false m e
  end.

(** Comparison of the values; [None] when either side is NaN. *)
Definition compare (x y : float) : option comparison :=
  match x, y with
  | NaN, _ | _, NaN => None
  | Inf sx, Inf sy =>
      Some (if Bool.eqb sx sy then Eq else if sx then Lt else Gt)
  | Inf sx, Fin _ _ _ => Some (if sx then Lt else Gt)
  | Fin _ _ _, Inf sy => Some (if sy then Gt else Lt)
  | Fin sx mx ex, Fin sy my ey =>
      let e := Z.min ex ey in
      Some (signed sx mx * 2 ^ (ex - e) ?= signed sy my * 2 ^ (ey - e))
  end.

Definition ltb (x y : float) : bool :=
  match compare x y with Some Lt => true | _ => false end.

Definition leb (x y : float) : bool :=
  match compare x y with Some Lt | Some Eq => true | _ => false end.

Definition eqb (x y : float) : bool :=
  match compare x y with Some Eq => true | _ => false end.

(** [x + y] *)
Definition add (x y : float) : float :=
  match x, y with
  | NaN, _ | _, NaN => NaN
  | Inf sx, Inf sy => if Bool.eqb sx sy then Inf sx else NaN
  | Inf sx, Fin _ _ _ => Inf sx
  | Fin _ _ _, Inf sy => Inf sy
  | Fin sx mx ex, Fin sy my ey =>
      let e := Z.min ex ey in
      let z := signed sx mx * 2 ^ (ex - e) + signed sy my * 2 ^ (ey - e) in
      if z =? 0 then Fin (sx && sy) 0 0 else of_scaled z e
  end.

(** [x - y] *)
Definition sub (x y : float) : float := add x (opp y).

(** [x * y] *)
Definition mul (x y : float) : float :=
  match x, y with
  | NaN, _ | _, NaN => NaN
  | Inf sx, Inf sy => Inf (xorb sx sy)
  | Inf sx, Fin sy my _ =>
      if (my =? 0)%N then NaN else Inf (xorb sx sy)
  | Fin sx mx _, Inf sy =>
      if (mx =? 0)%N then NaN else Inf (xorb sx sy)
  | Fin sx mx ex, Fin sy my ey =>
      if ((mx =? 0) || (my =? 0))%N then Fin (xorb sx sy) 0 0
      else round (xorb sx sy)
             (Z.of_N mx * Z.of_N my * 2 ^ Z.max 0 (ex + ey))
             (2 ^ Z.max 0 (- (ex + ey)))
  end.

(** [x / y], as the hardware divides: a zero divisor gives an infinity or
    NaN. *)
Definition div (x y : float) : float :=
  match x, y with
  | NaN, _ | _, NaN => NaN
  | Inf _, Inf _ => NaN
  | Inf sx, Fin sy _ _ => Inf (xorb sx sy)
  | Fin sx _ _, Inf sy => Fin (xorb sx sy) 0 0
  | Fin sx mx ex, Fin sy my ey =>
      if (my =? 0)%N then
        if (mx =? 0)%N then NaN else Inf (xorb sx sy)
      else if (mx =? 0)%N then Fin (xorb sx sy) 0 0
      else round (xorb sx sy)
             (Z.of_N mx * 2 ^ Z.max 0 (ex - ey))
             (Z.of_N my * 2 ^ Z.max 0 (ey - ex))
  end.

(** Nearest integer, ties to even, as a float. *)
Definition rint (x : float) : float :=
  match x with
  | Fin s m e =>
      if 0 <=? e then x
      else
        let n := rne_div (Z.of_N m) (2 ^ (- e)) in
        if n =? 0 then Fin s 0 0 else round s n 1
  | _ => x
  end.

(** [n < x] for an [int] [n], compared exactly. *)
Definition Z_ltb (n : Z) (x : float) : bool :=
  match x with
  | NaN => false
  | Inf s => negb s
  | Fin s m e =>
      n * 2 ^ Z.max 0 (- e) <? signed s m * 2 ^ Z.max 0 e
  end.

Definition digit (d : Z) : ascii := ascii_of_nat (48 + Z.to_nat d).

(** A natural number in decimal, at least one digit. *)
Definition decimal (n : Z) : string :=
  NilZero.string_of_uint (N.to_uint (Z.to_N n)).

(** The [.2f] presentation: the decimal with two fractional digits
    nearest to the exact value, ties to the even last digit. *)
Definition fixed2 (x : float) : string :=
  match x with
  | NaN => "nan"
  | Inf s => if s then "-inf" else "inf"
  | Fin s m e =>
      let n := rne_div (Z.of_N m * 100 * 2 ^ Z.max 0 e) (2 ^ Z.max 0 (- e)) in
      (if s then "-" else "") ++ decimal (n / 100) ++ "."
        ++ String (digit (n / 10 mod 10)) (String (digit (n mod 10)) "")
  end.

(** Right alignment in a field of [width] characters. *)
Definition pad (width : nat) (s : string) : string :=
  PyStr.replicate (width - String.length s) " " ++ s.

(** [format(x, f"{width}.2f")] *)
Definition format_width (width : nat) (x : float) : string :=
  pad width (fixed2 x).

End F64.

(** ** numpy arrays of floats (one dimension) *)

Module np.

Import F64.

(** [np.diff(a)] *)
Fixpoint diff (a : list float) : list float :=
  match a with
  | x :: (y :: _) as rest => sub y x :: diff rest
  | _ => []
  end.

(** The scale of [around]: a table up to [1e8], then [1e9] multiplied by
    ten as often as needed. *)
Definition power_of_ten (n : nat) : float :=
  if (n <? 9)%nat then of_Z (10 ^ Z.of_nat n)
  else Nat.iter (n - 9) (fun r => mul r (of_Z 10)) (of_Z (10 ^ 9)).

(** [x.round(decimals)] on one element: scale, round to the nearest
    integer, scale back. *)
Definition round (decimals : Z) (x : float) : float :=
  if decimals =? 0 then rint x
  else if 0 <? decimals then
    let f := power_of_ten (Z.to_nat decimals) in
    div (rint (mul x f)) f
  else
    let f := power_of_ten (Z.to_nat (- decimals)) in
    mul (rint (div x f)) f.

(** The order of [sort]: by value, NaN last. *)
Definition sort_leb (x y : float) : bool := is_nan y || leb x y.

Fixpoint insert (x : float) (l : list float) : list float :=
  match l with
  | [] => [x]
  | y :: rest => if sort_leb x y then x :: l else y :: insert x rest
  end.

Definition sort (a : list float) : list float := fold_right insert [] a.

(** Two elements that [unique] takes for one: equal values, or two
    NaNs. *)
Definition same (x y : float) : bool := eqb x y || (is_nan x && is_nan y).

(** The elements of a sorted array that differ from the one before. *)
Fixpoint changes (prev : float) (l : list float) : list float :=
  match l with
  | [] => []
  | x :: rest =>
      if same prev x then changes x rest else x :: changes x rest
  end.

(** [np.unique(a)] *)
Definition unique (a : list float) : list float :=
  match sort a with
  | [] => []
  | x :: rest => x :: changes x rest
  end.

(** [np.all(a > 0)] *)
Definition all_positive (a : list float) : bool :=
  forallb (fun d => ltb zero d) a.

(** [np.any(a < 0)] *)
Definition any_negative (a : list float) : bool :=
  existsb (fun d => ltb d zero) a.

(** [a[:stop]]: [None] keeps all, a negative stop counts from the end. *)
Definition slice_to {A : Type} (a : list A) (stop : option Z) : list A :=
  match stop with
  | None => a
  | Some n =>
      if 0 <=? n then firstn (Z.to_nat n) a
      else firstn (List.length a - Z.to_nat (- n)) a
  end.

End np.

(** ** utils.py *)

(** A number held by a Python variable: [int] or [float]. *)
Inductive pynum : Type :=
| PyInt (z : Z)
| PyFloat (f : F64.float).

(** [abs(num) < order] *)
Definition abs_lt (num : pynum) (order : F64.float) : bool :=
  match num with
  | PyInt z => F64.Z_ltb (Z.abs z) order
  | PyFloat f => F64.ltb (F64.abs f) order
  end.

(** [float(z)]: an [int] beyond the range of floats does not convert. *)
Definition to_float (z : Z) : outcome F64.float :=
  match F64.of_Z z with
  | F64.Inf _ => Raised OverflowError
  | f => Returned f
  end.

Definition as_float (num : pynum) : outcome F64.float :=
  match num with
  | PyInt z => to_float z
  | PyFloat f => Returned f
  end.

(** [num / order] *)
Definition truediv (num : pynum) (order : F64.float) : outcome F64.float :=
  f <- as_float num ;;
  if F64.is_zero order then Raised ZeroDivisionError
  else Returned (F64.div f order).

(** [f"{num:{width}.2f}"] *)
Definition format_f2 (width : nat) (num : pynum) : outcome string :=
  f <- as_float num ;;
  Returned (F64.format_width width f).

Definition prefixes : list string := [""; "K"; "M"; "G"; "T"; "P"; "E"; "Z"].

(** The [for prefix in prefixes] loop of [format_byte_size] and the
    [return] after it. *)
Fixpoint format_byte_size_loop (num : pynum) (prefixes : list string)
    (order : F64.float) (suffix : string) : outcome string :=
  match prefixes with
  | [] =>
      s <- format_f2 0 num ;;
      Returned (s ++ "Y" ++ suffix)
  | prefix :: rest =>
      if abs_lt num order then
        s <- format_f2 3 num ;;
        Returned (s ++ prefix ++ suffix)
      else
        num' <- truediv num order ;;
        format_byte_size_loop (PyFloat num') rest order suffix
  end.

Definition units_error : exn :=
  ValueError "'units' argument must be either 'SI' (for orders of 1000) or 'binary' (for orders of 1024).".

(** [units] is [None] when the caller leaves the argument out. *)
Definition format_byte_size (byte_size : Z) (units : option string)
    : outcome string :=
  let units := match units with Some u => u | None => "SI" end in
  let num := PyInt byte_size in
  os <- (if String.eqb units "SI" then Returned (F64.of_Z 1000, "B")
         else if String.eqb units "binary" then Returned (F64.of_Z 1024, "iB")
         else Raised units_error) ;;
  format_byte_size_loop num prefixes (fst os) (snd os).

Definition check_regular_series (series : list F64.float)
    (tolerance_decimals : option Z) : bool :=
  let tolerance_decimals :=
    match tolerance_decimals with Some d => d | None => 9 end in
  let uniq_diff_ts := np.unique (map (np.round tolerance_decimals) (np.diff series)) in
  Nat.eqb (List.length uniq_diff_ts) 1.

Definition is_ascending_series (series : list F64.float) (nelems : option Z)
    : bool :=
  np.all_positive (np.diff (np.slice_to series nelems)).

Definition get_thread_max_workers (n_jobs workers_per_thread : option Z)
    : option Z :=
  let n_jobs := match n_jobs with Some n => n | None => 1 end in
  let workers_per_thread :=
    match workers_per_thread with Some w => w | None => 5 end in
  if negb (n_jobs =? -1) then Some (n_jobs * workers_per_thread)
  else None.

(** ** checks/ecephys.py *)

(** A [Units] table: one list of spike times per unit. *)
Record Units : Type := mk_Units {
  units_name : string;
  units_location : string;
  spike_times : list (list F64.float)
}.

#[export] Instance Units_inspectable : Inspectable Units := {
  type_name_of := fun _ => "Units";
  name_of := fun t => Some (units_name t);
  location_of := units_location
}.

(** [Units()] followed by one [add_unit(spike_times=...)] per list. *)
Definition new_Units (times : list (list F64.float)) : Units :=
  mk_Units "Units" "/" times.

(** Modelled from the spec: the body of [check_negative_spike_times] of
    [checks/ecephys.py], which is not among the sources (only its unit tests
    are): one finding when the spike times of some unit include a negative
    entry, none otherwise. *)
Definition check_negative_spike_times_body : check_function Units :=
  fun units_table =>
    if existsb np.any_negative (spike_times units_table) then
      Returned (Some (new_message
        "This Units table contains negative spike times. Time should generally be aligned to the earliest time reference in the NWBFile."))
    else Returned None.

Definition check_negative_spike_times : check_function Units :=
  register_check BEST_PRACTICE_VIOLATION "check_negative_spike_times"
    check_negative_spike_times_body.

(** ** Vocabulary of the specification *)

(** The object [o] carries the string [s] under the attribute [a]. *)
Definition has_str (o : pyobj) (a s : string) : Prop :=
  attrs o a = Some (PyStr s).

(** The string holds the character [c]. *)
Definition has_char (c : ascii) (s : string) : Prop :=
  In c (list_ascii_of_string s).

(** Whitespace only, as [str.isspace] takes it (or empty). *)
Definition whitespace_only (s : string) : Prop :=
  PyStr.all_chars PyStr.isspace_char s = true.

(** Made of the space character alone (or empty). *)
Definition spaces_only (s : string) : Prop :=
  forall c, has_char c s -> c = " "%char.

(** Equal to a recognized placeholder once case is ignored and the periods
    before and after are left out. *)
Definition placeholder_like (s : string) : Prop :=
  exists p a b,
    In p COMMON_DESCRIPTION_PLACEHOLDERS /\
    PyStr.lower s = PyStr.replicate a "." ++ p ++ PyStr.replicate b ".".

(** A description that [check_description] reports. *)
Definition reported_description (v : pyval) : Prop :=
  match v with
  | PyNone => True
  | PyStr s => spaces_only s \/ placeholder_like s
  end.

(** The finding a registered check makes of the message [msg] on [o]. *)
Definition finding (imp : Importance) (fname msg : string) (o : pyobj)
    : InspectorMessage :=
  {| message := msg;
     severity := NO_SEVERITY;
     importance := Some imp;
     check_function_name := Some fname;
     object_type := Some (type_name o);
     object_name := name_of o;
     location := Some (obj_location o) |}.

(** An object with the one attribute [a], of value [v]. *)
Definition one_attr (a : string) (v : pyval) : pyobj :=
  mk_pyobj "NWBContainer" (fun b => if String.eqb b a then Some v else None) "/".

(** The tolerance [check_regular_series] works with. *)
Definition decimals_of (tolerance_decimals : option Z) : Z :=
  match tolerance_decimals with Some d => d | None => 9 end.

(** The difference between the elements [i + 1] and [i] of a series. *)
Definition step (series : list F64.float) (i : nat) : F64.float :=
  F64.sub (nth (S i) series F64.zero) (nth i series F64.zero).

(** Every rounded difference between consecutive elements is equal to every
    other (two NaNs counting as equal, as they do for [np.unique]). *)
Definition evenly_spaced (series : list F64.float) (decimals : Z) : Prop :=
  forall i j, (S i < List.length series)%nat -> (S j < List.length series)%nat ->
    np.same (np.round decimals (step series i))
            (np.round decimals (step series j)) = true.

(** Every difference between consecutive elements is strictly positive. *)
Definition strictly_ascending (series : list F64.float) : Prop :=
  forall i, (S i < List.length series)%nat ->
    F64.ltb F64.zero (step series i) = true.

(** The finding of [check_negative_spike_times] on a table. *)
Definition negative_spike_times_finding (t : Units) : InspectorMessage :=
  {| message := "This Units table contains negative spike times. Time should generally be aligned to the earliest time reference in the NWBFile.";
     severity := NO_SEVERITY;
     importance := Some BEST_PRACTICE_VIOLATION;
     check_function_name := Some "check_negative_spike_times";
     object_type := Some "Units";
     object_name := Some (units_name t);
     location := Some (units_location t) |}.

(** The float a Python number stands for in a division or a format. *)
Definition float_of (num : pynum) : F64.float :=
  match num with
  | PyInt z => F64.of_Z z
  | PyFloat f => f
  end.

(** The byte count after [k] divisions by [order]. *)
Fixpoint scaled (num : pynum) (order : F64.float) (k : nat) : pynum :=
  match k with
  | O => num
  | S j => scaled (PyFloat (F64.div (float_of num) order)) order j
  end.

(** A number written with two decimals. *)
Definition two_decimals (num : pynum) : string := F64.fixed2 (float_of num).

(** The two unit conventions: the divisor and the suffix of each. *)
Definition unit_convention (units : string) (order : Z) (suffix : string)
    : Prop :=
  (units = "SI" /\ order = 1000 /\ suffix = "B") \/
  (units = "binary" /\ order = 1024 /\ suffix = "iB").

(** The first [k] numbers of the sequence [x], [x / order], ... *)
Fixpoint ladder (order x : F64.float) (k : nat) : list F64.float :=
  match k with
  | O => []
  | S j => x :: ladder order (F64.div x order) j
  end.

(** The least magnitude that does not convert to a float. *)
Definition float_overflow : Z := 2 ^ 1024 - 2 ^ 970.

(** The same float in the Standard Library's specification of IEEE 754
    arithmetic, against which the operations of [F64] are tested below. *)
Definition to_spec (x : F64.float) : spec_float :=
  match x with
  | F64.NaN => S754_nan
  | F64.Inf s => S754_infinity s
  | F64.Fin s 0%N _ => S754_zero s
  | F64.Fin s (Npos m) e => S754_finite s m e
  end.

Definition spec_eqb (x y : spec_float) : bool :=
  match x, y with
  | S754_nan, S754_nan => true
  | S754_zero a, S754_zero b => Bool.eqb a b
  | S754_infinity a, S754_infinity b => Bool.eqb a b
  | S754_finite a m e, S754_finite b m' e' =>
      Bool.eqb a b && Pos.eqb m m' && Z.eqb e e'
  | _, _ => false
  end.

(** Pairs of floats of every kind: integers, an inexact quotient, the
    rounded [10^24], the largest float, a subnormal, the zeros, the
    infinities and NaN. *)
Definition sample_pairs : list (F64.float * F64.float) :=
  let third := F64.div (F64.of_Z 1) (F64.of_Z 3) in
  let largest := F64.Fin false 9007199254740991 971 in
  let tiny := F64.Fin true 3 (-1074) in
  [(F64.of_Z 1, F64.of_Z 3); (F64.of_Z (10 ^ 24), F64.of_Z 1000);
   (F64.of_Z 1000, third); (F64.of_Z (-7), F64.of_Z 1000);
   (F64.of_Z 123456789, F64.of_Z 1024); (largest, largest);
   (largest, third); (tiny, third); (tiny, F64.of_Z 1000); (tiny, tiny);
   (F64.zero, F64.Fin true 0 0); (F64.of_Z 1, F64.zero);
   (F64.zero, F64.zero); (F64.Inf false, F64.Inf true);
   (F64.Inf true, F64.of_Z 3); (third, F64.Inf false);
   (F64.NaN, F64.of_Z 1); (third, F64.NaN)].

(** [f] and [g] agree on every sample pair. *)
Definition agree_on_samples (f : F64.float -> F64.float -> F64.float)
    (g : spec_float -> spec_float -> spec_float) : bool :=
  forallb (fun p => spec_eqb (to_spec (f (fst p) (snd p)))
                             (g (to_spec (fst p)) (to_spec (snd p))))
          sample_pairs.

(** The test [check_description] makes of a description string. *)
Definition description_flagged (d : string) : bool :=
  String.eqb (PyStr.strip " " d) ""
  || PyStr.in_list (PyStr.strip "." (PyStr.lower d))
       COMMON_DESCRIPTION_PLACEHOLDERS.

(** A float whose exponent is one of binary64: the operations of [F64]
    return no other. *)
Definition representable (x : F64.float) : Prop :=
  match x with
  | F64.Fin _ _ e => -1074 <= e
  | _ => True
  end.

(** Each element is less than the next. *)
Definition increasing (series : list F64.float) : Prop :=
  forall i, (S i < List.length series)%nat ->
    F64.ltb (nth i series F64.zero) (nth (S i) series F64.zero) = true.

(** A float that is positive or a positive zero, infinity included. *)
Definition sign_positive (x : F64.float) : bool :=
  match x with
  | F64.Inf false | F64.Fin false _ _ => true
  | _ => false
  end.

(** The number of divisions [format_byte_size] makes of [num], out of [k]
    at most: the index of the prefix it writes, [k] standing for Y. *)
Fixpoint first_below (num : pynum) (order : F64.float) (k : nat) : nat :=
  match k with
  | O => O
  | S j =>
      if abs_lt num order then O
      else S (first_below (PyFloat (F64.div (float_of num) order)) order j)
  end.

Definition prefix_index (byte_size order : Z) : nat :=
  first_below (PyInt byte_size) (F64.of_Z order) 8.

(** * Proofs *)

(** ** Strings *)

Section StringFacts.

Import PyStr.

Lemma append_nil_r (s : string) : s ++ "" = s.
Proof. induction s as [|c s IH]; simpl; [reflexivity | now rewrite IH]. Qed.

Lemma append_assoc (s t u : string) : (s ++ t) ++ u = s ++ (t ++ u).
Proof. induction s as [|c s IH]; simpl; [reflexivity | now rewrite IH]. Qed.

Lemma mem_single (c d : ascii) : mem c (String d "") = Ascii.eqb c d.
Proof. simpl. now rewrite orb_false_r. Qed.

Lemma contains_single (c : ascii) (s : string) :
  contains (String c "") s = true <-> has_char c s.
Proof.
  unfold has_char. induction s as [|d s IH]; simpl.
  - split; [discriminate | tauto].
  - destruct (ascii_dec c d) as [->|Hne]; simpl.
    + destruct s; simpl; split; auto.
    + rewrite IH. split; [auto | intros [H|H]; congruence].
Qed.

Lemma all_chars_spec (p : ascii -> bool) (s : string) :
  all_chars p s = true <-> forall c, has_char c s -> p c = true.
Proof.
  unfold has_char. induction s as [|d s IH]; simpl.
  - split; [intros _ c [] | reflexivity].
  - rewrite andb_true_iff, IH. split.
    + intros [Hd Hs] c [<-|Hc]; auto.
    + intros H. split; [apply H; now left | intros c Hc; apply H; now right].
Qed.

Lemma lstrip_all (cs s : string) :
  lstrip cs s = "" <-> all_chars (fun c => mem c cs) s = true.
Proof.
  induction s as [|d s IH]; simpl.
  - tauto.
  - destruct (mem d cs); simpl; [exact IH | split; discriminate].
Qed.

Lemma lstrip_head (cs s : string) (c : ascii) (r : string) :
  lstrip cs s = String c r -> mem c cs = false.
Proof.
  induction s as [|d s IH]; simpl; [discriminate |].
  destruct (mem d cs) eqn:E; [exact IH | congruence].
Qed.

Lemma rstrip_all (cs s : string) :
  rstrip cs s = "" <-> all_chars (fun c => mem c cs) s = true.
Proof.
  induction s as [|d s IH]; simpl.
  - tauto.
  - destruct (rstrip cs s) eqn:E.
    + destruct (mem d cs); simpl; [tauto | split; discriminate].
    + split; [discriminate |].
      rewrite andb_true_iff. intros [_ H]. apply IH in H. discriminate.
Qed.

Lemma strip_all (cs s : string) :
  strip cs s = "" <-> all_chars (fun c => mem c cs) s = true.
Proof.
  unfold strip. split.
  - intros H. apply lstrip_all. apply rstrip_all in H.
    destruct (lstrip cs s) as [|c r] eqn:E; [reflexivity |].
    apply lstrip_head in E. simpl in H. rewrite E in H. discriminate.
  - intros H. apply lstrip_all in H. now rewrite H.
Qed.

Lemma strip_spaces (s : string) : strip " " s = "" <-> spaces_only s.
Proof.
  rewrite strip_all, all_chars_spec. unfold spaces_only.
  split; intros H c Hc; specialize (H c Hc).
  - rewrite mem_single in H. now apply Ascii.eqb_eq.
  - rewrite mem_single. now apply Ascii.eqb_eq.
Qed.

Lemma lstrip_replicate (c : ascii) (n : nat) (s : string) :
  lstrip (String c "") (replicate n c ++ s) = lstrip (String c "") s.
Proof.
  induction n as [|n IH]; simpl; [reflexivity |].
  now rewrite Ascii.eqb_refl.
Qed.

Lemma rstrip_replicate (c : ascii) (n : nat) (s : string) :
  rstrip (String c "") (s ++ replicate n c) = rstrip (String c "") s.
Proof.
  assert (Hn : rstrip (String c "") (replicate n c) = "").
  { apply rstrip_all, all_chars_spec. unfold has_char.
    induction n as [|n IH]; cbn [replicate list_ascii_of_string In];
      [intros d [] |].
    intros d [<-|Hd]; [rewrite mem_single; apply Ascii.eqb_refl | auto]. }
  induction s as [|d s IH]; [exact Hn |].
  change (String d s ++ replicate n c) with (String d (s ++ replicate n c)).
  cbn [rstrip]. now rewrite IH.
Qed.

Lemma lstrip_decomp (c : ascii) (s : string) :
  exists n, s = replicate n c ++ lstrip (String c "") s.
Proof.
  induction s as [|d s [n IH]]; [now exists 0%nat |].
  cbn [lstrip]. rewrite mem_single.
  destruct (Ascii.eqb d c) eqn:E.
  - apply Ascii.eqb_eq in E. subst d. exists (S n). simpl. now rewrite <- IH.
  - now exists 0%nat.
Qed.

Lemma rstrip_decomp (c : ascii) (s : string) :
  exists n, s = rstrip (String c "") s ++ replicate n c.
Proof.
  induction s as [|d s [n IH]]; [now exists 0%nat |].
  cbn [rstrip]. destruct (rstrip (String c "") s) as [|x r] eqn:E.
  - rewrite mem_single. destruct (Ascii.eqb d c) eqn:Ed.
    + apply Ascii.eqb_eq in Ed. subst d. exists (S n). simpl in *. now rewrite <- IH.
    + exists n. simpl in *. now rewrite <- IH.
  - exists n. simpl in *. now rewrite <- IH.
Qed.

Lemma strip_decomp (c : ascii) (s : string) :
  exists a b, s = replicate a c ++ strip (String c "") s ++ replicate b c.
Proof.
  destruct (lstrip_decomp c s) as [a Ha].
  destruct (rstrip_decomp c (lstrip (String c "") s)) as [b Hb].
  exists a, b. unfold strip. now rewrite <- Hb.
Qed.

Lemma in_list_spec (x : string) (l : list string) :
  in_list x l = true <-> In x l.
Proof.
  induction l as [|y l IH]; simpl.
  - split; [discriminate | tauto].
  - rewrite orb_true_iff, IH, String.eqb_eq. split; intros [H|H]; auto.
Qed.

(** Stripping the periods of a string gives a placeholder exactly when
    the string is that placeholder between two runs of periods. *)
Lemma strip_periods_placeholder (t : string) :
  In (strip "." t) COMMON_DESCRIPTION_PLACEHOLDERS <->
  exists p a b, In p COMMON_DESCRIPTION_PLACEHOLDERS /\
                t = replicate a "." ++ p ++ replicate b ".".
Proof.
  split.
  - intros H. destruct (strip_decomp "." t) as (a & b & E).
    now exists (strip "." t), a, b.
  - intros (p & a & b & Hp & ->).
    assert (E : strip "." (replicate a "." ++ p ++ replicate b ".") = p).
    { unfold strip. rewrite lstrip_replicate.
      simpl in Hp. destruct Hp as [<-|[<-|[<-|[]]]];
        cbn [append lstrip mem Ascii.eqb Bool.eqb orb];
        match goal with
        | |- rstrip _ (String ?c1 ?rest) = ?p =>
            change (String c1 rest) with (p ++ replicate b ".")
        end; rewrite rstrip_replicate; reflexivity. }
    now rewrite E.
Qed.

End StringFacts.

(** ** checks/general.py *)

Section GeneralChecks.

Variable o : pyobj.

Lemma check_name_slashes_body_str (n : string) :
  has_str o "name" n ->
  check_name_slashes_body o =
    if PyStr.contains "/" n || PyStr.contains "\" n
    then Returned (Some (new_message "Object name contains slashes, ."))
    else Returned None.
Proof.
  unfold has_str, check_name_slashes_body, hasattr, getattr. intros ->.
  simpl. destruct (PyStr.contains "/" n); simpl; [reflexivity |].
  destruct (PyStr.contains "\" n); reflexivity.
Qed.

Lemma check_description_body_str (d : string) :
  has_str o "description" d ->
  check_description_body o =
    if String.eqb (PyStr.strip " " d) "" then
      Returned (Some (new_message "Description is missing."))
    else if PyStr.in_list (PyStr.strip "." (PyStr.lower d))
              COMMON_DESCRIPTION_PLACEHOLDERS then
      Returned (Some (new_message ("Description (" ++ d ++ ") is a placeholder.")))
    else Returned None.
Proof.
  unfold has_str, check_description_body, hasattr, getattr. now intros ->.
Qed.

Lemma check_description_body_None :
  attrs o "description" = Some PyNone ->
  check_description_body o =
    Returned (Some (new_message "Description is missing.")).
Proof.
  unfold check_description_body, hasattr, getattr. now intros ->.
Qed.

End GeneralChecks.

(** C2.  On an object whose name is the string [n], [check_name_slashes]
    returns one finding, of CRITICAL importance, when [n] holds a forward
    slash or a backslash, and no finding when it holds neither. *)
Theorem check_name_slashes_spec (o : pyobj) (n : string) :
  has_str o "name" n ->
  (has_char "/" n \/ has_char "\" n ->
   check_name_slashes o =
     Returned (Some (finding CRITICAL "check_name_slashes"
                       "Object name contains slashes, ." o))) /\
  (~ (has_char "/" n \/ has_char "\" n) ->
   check_name_slashes o = Returned None).
Proof.
  intros Hn. unfold check_name_slashes, register_check.
  rewrite (check_name_slashes_body_str o n Hn).
  rewrite <- !contains_single.
  destruct (PyStr.contains "/" n), (PyStr.contains "\" n); simpl;
    split; try reflexivity; intros H;
    solve [ exfalso; apply H; auto | destruct H; discriminate ].
Qed.

Lemma check_name_slashes_spec_witness :
  check_name_slashes (one_attr "name" (PyStr "acquisition/ts")) =
    Returned (Some (finding CRITICAL "check_name_slashes"
                      "Object name contains slashes, ."
                      (one_attr "name" (PyStr "acquisition/ts")))).
Proof.
  apply (check_name_slashes_spec (one_attr "name" (PyStr "acquisition/ts"))
           "acquisition/ts" eq_refl).
  left. unfold has_char. simpl. tauto.
Defined.

(** C1, as the code has it.  On an object that has a description,
    [check_description] returns one finding, of BEST_PRACTICE_SUGGESTION
    importance, when the description is [None], is empty or made of space
    characters only, or is a recognized placeholder once lower-cased and
    freed of the periods before and after it; on every other description it
    returns no finding. *)
Theorem check_description_spec (o : pyobj) (v : pyval) :
  attrs o "description" = Some v ->
  (reported_description v ->
   exists msg, check_description o =
     Returned (Some (finding BEST_PRACTICE_SUGGESTION "check_description" msg o))) /\
  (~ reported_description v -> check_description o = Returned None).
Proof.
  intros Hv. unfold check_description, register_check.
  destruct v as [|d].
  - rewrite (check_description_body_None o Hv). simpl. split.
    + intros _. now eexists.
    + intros H. now destruct H.
  - rewrite (check_description_body_str o d Hv).
    destruct (String.eqb (PyStr.strip " " d) "") eqn:Es.
    + apply String.eqb_eq, strip_spaces in Es. split.
      * intros _. now eexists.
      * intros H. exfalso. apply H. now left.
    + assert (Hs : ~ spaces_only d).
      { intros H. apply strip_spaces in H. rewrite H in Es. discriminate. }
      destruct (PyStr.in_list (PyStr.strip "." (PyStr.lower d))
                  COMMON_DESCRIPTION_PLACEHOLDERS) eqn:Ep.
      * split; [intros _; now eexists |].
        intros H. exfalso. apply H. right.
        apply in_list_spec, strip_periods_placeholder in Ep. exact Ep.
      * split; [| reflexivity].
        intros [H|H]; [contradiction |].
        apply strip_periods_placeholder, in_list_spec in H.
        rewrite H in Ep. discriminate.
Qed.

Lemma check_description_spec_witness :
  exists msg,
    check_description (one_attr "description" (PyStr "No Desc...")) =
      Returned (Some (finding BEST_PRACTICE_SUGGESTION "check_description" msg
                        (one_attr "description" (PyStr "No Desc...")))).
Proof.
  apply (check_description_spec (one_attr "description" (PyStr "No Desc..."))
           (PyStr "No Desc...") eq_refl).
  right. exists "no desc", 0%nat, 3%nat. simpl. tauto.
Defined.

(** C1, as stated, fails: a description made of one tab is whitespace only,
    and [check_description] returns no finding for it. *)
Lemma check_description_tab :
  whitespace_only (String "009" "") /\
  check_description (one_attr "description" (PyStr (String "009" ""))) =
    Returned None.
Proof. split; reflexivity. Qed.

(** C3.  On an object without a description attribute, [check_description]
    returns [None]: no finding, and no exception (reading the absent
    attribute would raise [AttributeError]). *)
Theorem check_description_absent (o : pyobj) :
  attrs o "description" = None ->
  getattr o "description" = Raised AttributeError /\
  check_description_body o = Returned None /\
  check_description o = Returned None.
Proof.
  intros H. unfold check_description, register_check, check_description_body,
    hasattr, getattr. rewrite H. simpl. auto.
Qed.

Lemma check_description_absent_witness :
  getattr (one_attr "name" (PyStr "ts")) "description" = Raised AttributeError /\
  check_description_body (one_attr "name" (PyStr "ts")) = Returned None /\
  check_description (one_attr "name" (PyStr "ts")) = Returned None.
Proof.
  apply (check_description_absent (one_attr "name" (PyStr "ts"))).
  reflexivity.
Defined.

(** ** utils.py: [get_thread_max_workers] *)

(** C7.  For a positive [n_jobs], [get_thread_max_workers] returns
    [n_jobs * workers_per_thread], the multiplier being 5 when it is left
    out; for [n_jobs = -1] it returns [None]. *)
Theorem get_thread_max_workers_spec (n_jobs : Z) :
  0 < n_jobs ->
  (forall w, get_thread_max_workers (Some n_jobs) (Some w) = Some (n_jobs * w)) /\
  get_thread_max_workers (Some n_jobs) None = Some (n_jobs * 5) /\
  (forall w, get_thread_max_workers (Some (-1)) w = None).
Proof.
  intros Hn. unfold get_thread_max_workers.
  assert (E : (n_jobs =? -1) = false) by (apply Z.eqb_neq; lia).
  rewrite E. simpl. repeat split; intros [w|]; reflexivity.
Qed.

Lemma get_thread_max_workers_spec_witness :
  (forall w, get_thread_max_workers (Some 4) (Some w) = Some (4 * w)) /\
  get_thread_max_workers (Some 4) None = Some (4 * 5) /\
  (forall w, get_thread_max_workers (Some (-1)) w = None).
Proof. apply (get_thread_max_workers_spec 4). lia. Defined.

(** ** utils.py: [format_byte_size], the unit convention *)

(** C6.  With a [units] argument that is neither ['SI'] nor ['binary'],
    [format_byte_size] raises the [ValueError] of the source, whatever the
    byte count, and returns no string. *)
Theorem format_byte_size_bad_units (byte_size : Z) (units : string) :
  units <> "SI" -> units <> "binary" ->
  format_byte_size byte_size (Some units) = Raised units_error /\
  forall s, format_byte_size byte_size (Some units) <> Returned s.
Proof.
  intros H1 H2. apply String.eqb_neq in H1, H2.
  unfold format_byte_size. rewrite H1, H2. simpl. split; [reflexivity |].
  intros s. discriminate.
Qed.

Lemma format_byte_size_bad_units_witness :
  format_byte_size 2048 (Some "si") = Raised units_error /\
  forall s, format_byte_size 2048 (Some "si") <> Returned s.
Proof.
  apply (format_byte_size_bad_units 2048 "si"); discriminate.
Defined.

(** ** Floats: agreement with the Standard Library's IEEE 754 *)

Example arithmetic_agrees_with_SpecFloat :
  agree_on_samples F64.div (SFdiv 53 1024) = true /\
  agree_on_samples F64.mul (SFmul 53 1024) = true /\
  agree_on_samples F64.add (SFadd 53 1024) = true /\
  agree_on_samples F64.sub (SFsub 53 1024) = true.
Proof. vm_compute. repeat split. Qed.

Example comparison_agrees_with_SpecFloat :
  forallb (fun p =>
             Bool.eqb (F64.ltb (fst p) (snd p))
                      (SFltb (to_spec (fst p)) (to_spec (snd p)))
             && Bool.eqb (F64.eqb (fst p) (snd p))
                         (SFeqb (to_spec (fst p)) (to_spec (snd p)))
             && Bool.eqb (F64.leb (fst p) (snd p))
                         (SFleb (to_spec (fst p)) (to_spec (snd p))))
          sample_pairs = true.
Proof. vm_compute. reflexivity. Qed.

(** ** Floats: order *)

Section FloatOrder.

Import F64.

Lemma Z_mul_compare_r (n m p : Z) : 0 < p -> (n * p ?= m * p) = (n ?= m).
Proof.
  intros Hp. destruct (Z.compare_spec n m) as [->|H|H].
  - apply Z.compare_refl.
  - apply Z.compare_lt_iff. nia.
  - apply Z.compare_gt_iff. nia.
Qed.

Lemma compare_Fin_at (sx : bool) (mx : N) (ex : Z) (sy : bool) (my : N)
    (ey e0 : Z) :
  e0 <= ex -> e0 <= ey ->
  compare (Fin sx mx ex) (Fin sy my ey) =
    Some (signed sx mx * 2 ^ (ex - e0) ?= signed sy my * 2 ^ (ey - e0)).
Proof.
  intros Hx Hy. cbn [compare]. f_equal.
  set (e := Z.min ex ey).
  assert (He : e0 <= e) by (unfold e; lia).
  assert (Hex : e <= ex) by (unfold e; lia).
  assert (Hey : e <= ey) by (unfold e; lia).
  replace (ex - e0) with ((ex - e) + (e - e0)) by lia.
  replace (ey - e0) with ((ey - e) + (e - e0)) by lia.
  rewrite !Z.pow_add_r by lia. rewrite !Z.mul_assoc.
  symmetry. apply Z_mul_compare_r.
  apply Z.pow_pos_nonneg; lia.
Qed.

Lemma compare_antisym (x y : float) :
  compare y x = option_map CompOpp (compare x y).
Proof.
  destruct x as [|sx|sx mx ex], y as [|sy|sy my ey]; try reflexivity.
  - destruct sx, sy; reflexivity.
  - destruct sx; reflexivity.
  - destruct sy; reflexivity.
  - cbn [compare option_map]. rewrite (Z.min_comm ey ex).
    now rewrite Z.compare_antisym.
Qed.

Lemma compare_refl (x : float) : is_nan x = false -> compare x x = Some Eq.
Proof.
  destruct x as [|s|s m e]; [discriminate | |]; intros _; cbn [compare].
  - now rewrite Bool.eqb_reflx.
  - now rewrite Z.compare_refl.
Qed.

Lemma compare_nan_l (x y : float) : is_nan x = true -> compare x y = None.
Proof. destruct x; [reflexivity | discriminate | discriminate]. Qed.

Lemma compare_nan_r (x y : float) : is_nan y = true -> compare x y = None.
Proof. destruct y; [now destruct x | discriminate | discriminate]. Qed.

(** The order of the values is transitive. *)
Lemma leb_trans (x y z : float) :
  leb x y = true -> leb y z = true -> leb x z = true.
Proof.
  unfold leb.
  destruct x as [|sx|sx mx ex], y as [|sy|sy my ey], z as [|sz|sz mz ez].
  all: try solve [cbn; intros H1 H2; try reflexivity;
                  try discriminate H1; discriminate H2].
  all: try solve [destruct sx; destruct sy; destruct sz; cbn; intros H1 H2;
                  try reflexivity; try discriminate H1; discriminate H2].
  all: try solve [destruct sx; destruct sz; cbn; intros H1 H2;
                  try reflexivity; try discriminate H1; discriminate H2].
  all: try solve [destruct sy; destruct sz; cbn; intros H1 H2;
                  try reflexivity; try discriminate H1; discriminate H2].
  all: try solve [destruct sx; destruct sy; cbn; intros H1 H2;
                  try reflexivity; try discriminate H1; discriminate H2].
  all: try solve [destruct sx; cbn; intros H1 H2;
                  try reflexivity; try discriminate H1; discriminate H2].
  all: try solve [destruct sy; cbn; intros H1 H2;
                  try reflexivity; try discriminate H1; discriminate H2].
  all: try solve [destruct sz; cbn; intros H1 H2;
                  try reflexivity; try discriminate H1; discriminate H2].
  set (e0 := Z.min ex (Z.min ey ez)).
  rewrite (compare_Fin_at sx mx ex sy my ey e0) by (unfold e0; lia).
  rewrite (compare_Fin_at sy my ey sz mz ez e0) by (unfold e0; lia).
  rewrite (compare_Fin_at sx mx ex sz mz ez e0) by (unfold e0; lia).
  destruct (Z.compare_spec (signed sx mx * 2 ^ (ex - e0))
                           (signed sy my * 2 ^ (ey - e0)));
    try discriminate;
    destruct (Z.compare_spec (signed sy my * 2 ^ (ey - e0))
                             (signed sz mz * 2 ^ (ez - e0)));
    try discriminate;
    destruct (Z.compare_spec (signed sx mx * 2 ^ (ex - e0))
                             (signed sz mz * 2 ^ (ez - e0)));
    try reflexivity; lia.
Qed.

Lemma eqb_leb (x y : float) :
  eqb x y = true <-> leb x y = true /\ leb y x = true.
Proof.
  unfold eqb, leb. rewrite (compare_antisym x y).
  destruct (compare x y) as [[]|]; simpl; intuition discriminate.
Qed.

Lemma eqb_sym (x y : float) : eqb x y = eqb y x.
Proof.
  unfold eqb. rewrite (compare_antisym x y).
  now destruct (compare x y) as [[]|].
Qed.

Lemma eqb_trans (x y z : float) :
  eqb x y = true -> eqb y z = true -> eqb x z = true.
Proof.
  rewrite !eqb_leb. intros [H1 H2] [H3 H4].
  split; eapply leb_trans; eauto.
Qed.

Lemma ltb_leb (x y : float) : leb x y = true -> ltb y x = false.
Proof.
  unfold leb, ltb. rewrite (compare_antisym x y).
  now destruct (compare x y) as [[]|].
Qed.

(** No float exceeds itself: [x - x] is never positive. *)
Lemma sub_diag_not_positive (x : float) : ltb zero (sub x x) = false.
Proof.
  destruct x as [|s|s m e]; try reflexivity.
  - unfold sub, add, opp. now destruct s.
  - unfold sub, opp. cbn [add]. rewrite Z.min_id, Z.sub_diag.
    assert (E : signed s m * 2 ^ 0 + signed (negb s) m * 2 ^ 0 = 0)
      by (unfold signed; destruct s; simpl; lia).
    rewrite E. simpl. now destruct s.
Qed.

End FloatOrder.

(** ** numpy *)

Section NumpyFacts.

Import F64.

Lemma diff_length (a : list float) :
  List.length (np.diff a) = (List.length a - 1)%nat.
Proof.
  induction a as [|x [|y r] IH]; try reflexivity.
  change (np.diff (x :: y :: r)) with (sub y x :: np.diff (y :: r)).
  cbn [List.length] in *. rewrite IH. lia.
Qed.

Lemma diff_nth (a : list float) (i : nat) :
  (S i < List.length a)%nat -> nth i (np.diff a) zero = step a i.
Proof.
  revert i. induction a as [|x [|y r] IH]; intros i Hi;
    try (cbn [List.length] in Hi; lia).
  change (np.diff (x :: y :: r)) with (sub y x :: np.diff (y :: r)).
  destruct i as [|i]; [reflexivity |].
  cbn [nth]. rewrite IH by (cbn [List.length] in *; lia). reflexivity.
Qed.

(** The elements of [np.diff a] are the steps of [a]. *)
Lemma diff_In (a : list float) (d : float) :
  In d (np.diff a) <->
  exists i, (S i < List.length a)%nat /\ d = step a i.
Proof.
  split.
  - intros H. destruct (In_nth _ _ zero H) as (i & Hi & E).
    rewrite diff_length in Hi. exists i. split; [lia |].
    rewrite <- E. apply diff_nth. lia.
  - intros (i & Hi & ->). rewrite <- diff_nth by exact Hi.
    apply nth_In. rewrite diff_length. lia.
Qed.

Lemma same_refl (x : float) : np.same x x = true.
Proof.
  unfold np.same, eqb. destruct (is_nan x) eqn:E.
  - now rewrite orb_true_r.
  - now rewrite compare_refl.
Qed.

Lemma same_sym (x y : float) : np.same x y = np.same y x.
Proof. unfold np.same. now rewrite eqb_sym, andb_comm. Qed.

Lemma eqb_not_nan (x y : float) :
  eqb x y = true -> is_nan x = false /\ is_nan y = false.
Proof.
  unfold eqb. destruct x, y; simpl; try discriminate; auto.
Qed.

Lemma same_trans (x y z : float) :
  np.same x y = true -> np.same y z = true -> np.same x z = true.
Proof.
  unfold np.same. rewrite !orb_true_iff, !andb_true_iff.
  intros [H1|[H1 H1']] [H2|[H2 H2']].
  - left. eapply eqb_trans; eauto.
  - apply eqb_not_nan in H1. destruct H1 as [_ H1]. congruence.
  - apply eqb_not_nan in H2. destruct H2 as [H2 _]. congruence.
  - auto.
Qed.

Lemma insert_In (x y : float) (l : list float) :
  In x (np.insert y l) <-> x = y \/ In x l.
Proof.
  induction l as [|z l IH]; simpl.
  - intuition.
  - destruct (np.sort_leb y z); simpl; [intuition | rewrite IH; intuition].
Qed.

Lemma sort_In (x : float) (l : list float) : In x (np.sort l) <-> In x l.
Proof.
  induction l as [|y l IH]; simpl; [tauto |].
  rewrite insert_In, IH. intuition.
Qed.

Lemma changes_nil (p : float) (l : list float) :
  np.changes p l = [] <-> forall x, In x l -> np.same p x = true.
Proof.
  revert p. induction l as [|y l IH]; intros p; simpl.
  - split; [intros _ x [] | reflexivity].
  - destruct (np.same p y) eqn:E.
    + rewrite IH. split.
      * intros H x [<-|Hx]; [exact E |].
        eapply same_trans; [exact E | auto].
      * intros H x Hx. eapply same_trans; [| apply H; now right].
        rewrite same_sym. exact E.
    + split; [discriminate |].
      intros H. rewrite H in E by now left. discriminate.
Qed.

(** [np.unique] leaves one element exactly when the array is not empty
    and its elements are all alike. *)
Lemma unique_singleton (l : list float) :
  List.length (np.unique l) = 1%nat <->
  l <> [] /\ forall x y, In x l -> In y l -> np.same x y = true.
Proof.
  unfold np.unique. destruct (np.sort l) as [|p r] eqn:E.
  - split; [discriminate |]. intros [H _]. exfalso. apply H.
    destruct l as [|x l]; [reflexivity |].
    assert (Hx : In x (np.sort (x :: l))) by (apply sort_In; now left).
    rewrite E in Hx. destruct Hx.
  - assert (Hin : forall x, In x l <-> x = p \/ In x r).
    { intros x. rewrite <- sort_In, E. simpl. intuition. }
    cbn [List.length]. split.
    + intros H. assert (Hc : np.changes p r = [])
        by (destruct (np.changes p r); [reflexivity | discriminate]).
      rewrite changes_nil in Hc. split.
      * intros ->. destruct (proj2 (Hin p)); auto.
      * assert (Hp : forall x, In x l -> np.same p x = true).
        { intros x Hx. apply Hin in Hx. destruct Hx as [->|Hx];
            [apply same_refl | auto]. }
        intros x y Hx Hy. eapply same_trans; [| apply Hp, Hy].
        rewrite same_sym. apply Hp, Hx.
    + intros [_ H].
      assert (Hc : np.changes p r = []).
      { apply changes_nil. intros x Hx. apply H; apply Hin; auto. }
      now rewrite Hc.
Qed.

Lemma slice_to_prefix (A : Type) (a : list A) (stop : option Z) :
  exists rest, a = (np.slice_to a stop ++ rest)%list.
Proof.
  destruct stop as [n|]; simpl.
  - destruct (0 <=? n); eexists; symmetry; apply firstn_skipn.
  - exists []. now rewrite app_nil_r.
Qed.

End NumpyFacts.

(** ** utils.py: [check_regular_series] and [is_ascending_series] *)

Section Series.

Import F64.

Lemma sub_eq_not_positive (x y : float) :
  eqb x y = true -> ltb zero (sub y x) = false.
Proof.
  destruct x as [|sx|sx mx ex], y as [|sy|sy my ey]; unfold eqb;
    try (simpl; discriminate).
  - destruct sx, sy; simpl; try discriminate; reflexivity.
  - destruct sx; simpl; discriminate.
  - destruct sy; simpl; discriminate.
  - cbn [compare]. intros H.
    destruct (Z.compare_spec (signed sx mx * 2 ^ (ex - Z.min ex ey))
                             (signed sy my * 2 ^ (ey - Z.min ex ey)))
      as [E|E|E]; try discriminate.
    unfold sub, opp. cbn [add]. rewrite (Z.min_comm ey ex).
    assert (Ez : signed sy my * 2 ^ (ey - Z.min ex ey)
                 + signed (negb sx) mx * 2 ^ (ex - Z.min ex ey) = 0).
    { replace (signed (negb sx) mx) with (- signed sx mx)
        by (unfold signed; destruct sx; simpl; lia).
      lia. }
    rewrite Ez. simpl. now destruct (sy && negb sx).
Qed.

Lemma regular_iff (series : list float) (d : Z) :
  List.length (np.unique (map (np.round d) (np.diff series))) = 1%nat <->
  (2 <= List.length series)%nat /\ evenly_spaced series d.
Proof.
  rewrite unique_singleton. unfold evenly_spaced. split.
  - intros [Hne H]. split.
    + destruct (np.diff series) eqn:E; [now destruct Hne |].
      pose proof (diff_length series) as L. rewrite E in L.
      cbn [List.length] in L. lia.
    + intros i j Hi Hj. apply H; apply in_map, diff_In; eauto.
  - intros [Hl H]. split.
    + intros E. apply map_eq_nil in E.
      pose proof (diff_length series) as L. rewrite E in L.
      cbn [List.length] in L. lia.
    + intros x y Hx Hy.
      apply in_map_iff in Hx, Hy.
      destruct Hx as (dx & <- & Hx), Hy as (dy & <- & Hy).
      apply diff_In in Hx, Hy.
      destruct Hx as (i & Hi & ->), Hy as (j & Hj & ->). now apply H.
Qed.

Lemma ascending_iff (a : list float) :
  np.all_positive (np.diff a) = true <-> strictly_ascending a.
Proof.
  unfold np.all_positive, strictly_ascending. rewrite forallb_forall. split.
  - intros H i Hi. apply H, diff_In. eauto.
  - intros H d Hd. apply diff_In in Hd. destruct Hd as (i & Hi & ->). auto.
Qed.

End Series.

(** C8, as the code has it.  [check_regular_series] returns [True] exactly
    when the series has at least two elements and every difference between
    consecutive elements, rounded to [tolerance_decimals] places (9 when
    left out), is equal to every other. *)
Theorem check_regular_series_spec (series : list F64.float)
    (tolerance_decimals : option Z) :
  check_regular_series series tolerance_decimals = true <->
  (2 <= List.length series)%nat /\
  evenly_spaced series (decimals_of tolerance_decimals).
Proof.
  unfold check_regular_series. rewrite Nat.eqb_eq.
  destruct tolerance_decimals; apply regular_iff.
Qed.

(** C8, as stated, fails: in the empty series every rounded difference is
    equal to every other, there being none, and [check_regular_series]
    returns [False]. *)
Lemma check_regular_series_empty :
  evenly_spaced [] (decimals_of None) /\
  check_regular_series [] None = false.
Proof.
  split; [| reflexivity]. intros i j Hi. simpl in Hi. lia.
Qed.

(** C10.  On a series of fewer than two elements [check_regular_series]
    returns [False]: the array of differences is empty, and so is the array
    of its unique values. *)
Theorem check_regular_series_short (series : list F64.float)
    (tolerance_decimals : option Z) :
  (List.length series < 2)%nat ->
  np.unique (map (np.round (decimals_of tolerance_decimals)) (np.diff series)) = [] /\
  check_regular_series series tolerance_decimals = false.
Proof.
  intros H. destruct series as [|x [|y r]]; [| | simpl in H; lia];
    destruct tolerance_decimals; split; reflexivity.
Qed.

Lemma check_regular_series_short_witness :
  np.unique (map (np.round (decimals_of None)) (np.diff [F64.of_Z 3])) = [] /\
  check_regular_series [F64.of_Z 3] None = false.
Proof.
  apply (check_regular_series_short [F64.of_Z 3] None). simpl. lia.
Defined.

(** C9.  [is_ascending_series] returns [True] exactly when every difference
    between consecutive elements of the slice [series[:nelems]] is strictly
    positive; the slice is a prefix of the series, the whole of it when
    [nelems] is left out and the first [nelems] elements for a count.  So a
    slice with two equal neighbours is never ascending, and there is such an
    input. *)
Theorem is_ascending_series_strict (series : list F64.float)
    (nelems : option Z) :
  (is_ascending_series series nelems = true <->
   strictly_ascending (np.slice_to series nelems)) /\
  (exists rest, series = (np.slice_to series nelems ++ rest)%list) /\
  np.slice_to series None = series /\
  (forall n, 0 <= n ->
     np.slice_to series (Some n) = firstn (Z.to_nat n) series) /\
  (forall i,
     (S i < List.length (np.slice_to series nelems))%nat ->
     nth i (np.slice_to series nelems) F64.zero
       = nth (S i) (np.slice_to series nelems) F64.zero \/
     F64.eqb (nth i (np.slice_to series nelems) F64.zero)
             (nth (S i) (np.slice_to series nelems) F64.zero) = true ->
     is_ascending_series series nelems = false) /\
  is_ascending_series [F64.of_Z 1; F64.of_Z 2; F64.of_Z 2] None = false.
Proof.
  unfold is_ascending_series. split; [apply ascending_iff |].
  split; [apply slice_to_prefix |]. split; [reflexivity |].
  split.
  { intros n Hn. unfold np.slice_to.
    now replace (0 <=? n) with true by (symmetry; apply Z.leb_le; lia). }
  split; [| vm_compute; reflexivity].
  intros i Hi Heq.
  destruct (np.all_positive (np.diff (np.slice_to series nelems))) eqn:E;
    [| reflexivity].
  apply ascending_iff in E. specialize (E i Hi). unfold step in E.
  destruct Heq as [Heq|Heq].
  - rewrite <- Heq, sub_diag_not_positive in E. discriminate.
  - rewrite (sub_eq_not_positive _ _ Heq) in E. discriminate.
Qed.

Lemma is_ascending_series_strict_witness :
  is_ascending_series [F64.of_Z 1; F64.of_Z 5; F64.of_Z 5; F64.of_Z 7] (Some 3)
    = false.
Proof.
  apply (is_ascending_series_strict
           [F64.of_Z 1; F64.of_Z 5; F64.of_Z 5; F64.of_Z 7] (Some 3))
    with (i := 1%nat).
  - vm_compute. reflexivity.
  - left. vm_compute. reflexivity.
Defined.

(** ** checks/ecephys.py *)

(** C4.  [check_negative_spike_times] returns no finding for a table
    whose spike times are all non-negative and for an empty table; when the
    spike times of some unit include a negative entry it returns one
    finding, with the message of the unit test, of BEST_PRACTICE_VIOLATION
    importance and NO_SEVERITY severity. *)
Theorem check_negative_spike_times_spec (t : Units) :
  ((forall u x, In u (spike_times t) -> In x u -> F64.leb F64.zero x = true) ->
   check_negative_spike_times t = Returned None) /\
  check_negative_spike_times (new_Units []) = Returned None /\
  ((exists u x, In u (spike_times t) /\ In x u /\ F64.ltb x F64.zero = true) ->
   check_negative_spike_times t =
     Returned (Some (negative_spike_times_finding t))).
Proof.
  unfold check_negative_spike_times, register_check,
    check_negative_spike_times_body.
  destruct (existsb np.any_negative (spike_times t)) eqn:E.
  - split; [| split; [reflexivity | reflexivity]].
    intros H. apply existsb_exists in E. destruct E as (u & Hu & E).
    apply existsb_exists in E. destruct E as (x & Hx & E).
    rewrite (ltb_leb _ _ (H u x Hu Hx)) in E. discriminate.
  - split; [reflexivity | split; [reflexivity |]].
    intros (u & x & Hu & Hx & Hneg).
    assert (E' : existsb np.any_negative (spike_times t) = true).
    { apply existsb_exists. exists u. split; [exact Hu |].
      apply existsb_exists. now exists x. }
    rewrite E' in E. discriminate.
Qed.

Lemma check_negative_spike_times_spec_witness :
  check_negative_spike_times
    (new_Units [[F64.zero; F64.div (F64.of_Z 1) (F64.of_Z 10)]; [F64.of_Z (-1)]]) =
  Returned (Some
    {| message := "This Units table contains negative spike times. Time should generally be aligned to the earliest time reference in the NWBFile.";
       severity := NO_SEVERITY;
       importance := Some BEST_PRACTICE_VIOLATION;
       check_function_name := Some "check_negative_spike_times";
       object_type := Some "Units";
       object_name := Some "Units";
       location := Some "/" |}).
Proof.
  apply (check_negative_spike_times_spec
    (new_Units [[F64.zero; F64.div (F64.of_Z 1) (F64.of_Z 10)]; [F64.of_Z (-1)]])).
  exists [F64.of_Z (-1)], (F64.of_Z (-1)).
  split; [right; left; reflexivity |].
  split; [left; reflexivity | vm_compute; reflexivity].
Defined.

(** ** Floats: rounding *)

Section Rounding.

Import F64.

Lemma rne_div_scale (a b c : Z) :
  0 < b -> 0 < c -> rne_div (a * c) (b * c) = rne_div a b.
Proof.
  intros Hb Hc. unfold rne_div.
  rewrite Z.div_mul_cancel_r by lia.
  rewrite Z.mul_mod_distr_r by lia.
  replace (2 * (a mod b * c)) with (2 * (a mod b) * c) by ring.
  now rewrite Z_mul_compare_r by exact Hc.
Qed.

Lemma rne_div_bounds (a b : Z) :
  0 < b -> a / b <= rne_div a b <= a / b + 1.
Proof.
  intros Hb. unfold rne_div.
  destruct (2 * (a mod b) ?= b); [destruct (Z.even (a / b)) | |]; lia.
Qed.

Lemma rne_div_mono_num (a a' b : Z) :
  0 < b -> a <= a' -> rne_div a b <= rne_div a' b.
Proof.
  intros Hb Ha.
  assert (Hq : a / b <= a' / b) by (apply Z.div_le_mono; lia).
  destruct (Z.eq_dec (a / b) (a' / b)) as [E|E].
  - assert (Hr : a mod b <= a' mod b).
    { rewrite !Z.mod_eq by lia. rewrite E. lia. }
    unfold rne_div. rewrite E.
    destruct (Z.compare_spec (2 * (a mod b)) b),
             (Z.compare_spec (2 * (a' mod b)) b);
      try destruct (Z.even (a' / b)); lia.
  - pose proof (rne_div_bounds a b Hb). pose proof (rne_div_bounds a' b Hb).
    lia.
Qed.

(** Rounding follows the order of the quotients. *)
Lemma rne_div_mono (a b a' b' : Z) :
  0 < b -> 0 < b' -> a * b' <= a' * b -> rne_div a b <= rne_div a' b'.
Proof.
  intros Hb Hb' H.
  rewrite <- (rne_div_scale a b b') by lia.
  rewrite <- (rne_div_scale a' b' b) by lia.
  rewrite (Z.mul_comm b' b). apply rne_div_mono_num; [lia | exact H].
Qed.

(** Rounding does not cross an integer. *)
Lemma rne_div_ge (a b n : Z) : 0 < b -> n * b <= a -> n <= rne_div a b.
Proof.
  intros Hb H. pose proof (rne_div_bounds a b Hb).
  assert (n <= a / b) by (apply Z.div_le_lower_bound; lia). lia.
Qed.

Lemma rne_div_le (a b n : Z) : 0 < b -> a <= n * b -> rne_div a b <= n.
Proof.
  intros Hb H. destruct (Z.eq_dec a (n * b)) as [->|Hne].
  - unfold rne_div. rewrite Z.div_mul, Z.mod_mul by lia.
    replace (2 * 0 ?= b) with Lt by (symmetry; apply Z.compare_lt_iff; lia).
    lia.
  - pose proof (rne_div_bounds a b Hb).
    assert (a / b < n) by (apply Z.div_lt_upper_bound; lia). lia.
Qed.

End Rounding.

Section RoundingOrder.

Import F64.

Lemma leb_Fin_shifted (n1 : N) (e1 : Z) (n2 : N) (e2 : Z) :
  -1074 <= e1 -> -1074 <= e2 ->
  Z.of_N n1 * 2 ^ (e1 + 1074) <= Z.of_N n2 * 2 ^ (e2 + 1074) ->
  leb (Fin false n1 e1) (Fin false n2 e2) = true.
Proof.
  intros H1 H2 H. unfold leb.
  rewrite (compare_Fin_at false n1 e1 false n2 e2 (-1074)) by lia.
  unfold signed.
  replace (e1 - -1074) with (e1 + 1074) by lia.
  replace (e2 - -1074) with (e2 + 1074) by lia.
  destruct (Z.compare_spec (Z.of_N n1 * 2 ^ (e1 + 1074))
                           (Z.of_N n2 * 2 ^ (e2 + 1074))); try reflexivity.
  lia.
Qed.

(** What [pack] makes of a mantissa [m] at [E] bits above [2^-1074]. *)
Lemma pack_cases (m E : Z) :
  0 <= m -> 0 <= E ->
  (pack false m (E - 1074) = Inf false /\ 2 ^ 2098 <= m * 2 ^ E) \/
  (exists n e, pack false m (E - 1074) = Fin false n e /\ -1074 <= e /\
               Z.of_N n * 2 ^ (e + 1074) = m * 2 ^ E /\
               m * 2 ^ E < 2 ^ 2098).
Proof.
  intros Hm HE. unfold pack.
  replace (E - 1074 + 1074) with E by lia.
  destruct (Z.leb_spec (2 ^ 2098) (m * 2 ^ E)) as [H|H]; [left; auto |].
  right. destruct (Z.eqb_spec m (2 ^ 53)) as [->|Hne].
  - exists (2 ^ 52)%N, (E - 1074 + 1). repeat split; [lia | | exact H].
    replace (E - 1074 + 1 + 1074) with (Z.succ E) by lia.
    rewrite Z.pow_succ_r by lia.
    change (Z.of_N (2 ^ 52)%N) with (2 ^ 52).
    change (2 ^ 53) with (2 ^ 52 * 2). ring.
  - exists (Z.to_N m), (E - 1074). repeat split; [lia | | exact H].
    replace (E - 1074 + 1074) with E by lia. now rewrite Z2N.id by lia.
Qed.

Lemma pack_leb (m1 E1 m2 E2 : Z) :
  0 <= m1 -> 0 <= m2 -> 0 <= E1 -> 0 <= E2 ->
  m1 * 2 ^ E1 <= m2 * 2 ^ E2 ->
  leb (pack false m1 (E1 - 1074)) (pack false m2 (E2 - 1074)) = true.
Proof.
  intros Hm1 Hm2 HE1 HE2 H.
  destruct (pack_cases m1 E1 Hm1 HE1) as [[-> B1]|(n1 & e1 & -> & He1 & V1 & B1)],
           (pack_cases m2 E2 Hm2 HE2) as [[-> B2]|(n2 & e2 & -> & He2 & V2 & B2)];
    try reflexivity.
  - lia.
  - apply leb_Fin_shifted; lia.
Qed.

Lemma div_cross_mono (a b a' b' : Z) :
  0 <= a -> 0 < b -> 0 < b' -> a * b' <= a' * b -> a / b <= a' / b'.
Proof.
  intros Ha Hb Hb' H. apply Z.div_le_lower_bound; [lia |].
  pose proof (Z.mul_div_le a b Hb).
  assert (b * (b' * (a / b)) <= b * a') by nia.
  nia.
Qed.

(** [round] follows the order of the quotients it rounds. *)
Lemma round_mono (a1 b1 a2 b2 : Z) :
  0 < a1 -> 0 < b1 -> 0 < a2 -> 0 < b2 -> a1 * b2 <= a2 * b1 ->
  leb (round false a1 b1) (round false a2 b2) = true.
Proof.
  intros Ha1 Hb1 Ha2 Hb2 H. unfold round, round_exp.
  set (P := 2 ^ 1074). assert (HP : 0 < P) by (apply Z.pow_pos_nonneg; lia).
  set (Q1 := a1 * P / b1). set (Q2 := a2 * P / b2).
  assert (HQ1 : 0 <= Q1) by (apply Z.div_pos; nia).
  assert (HQ : Q1 <= Q2) by (apply div_cross_mono; nia).
  assert (HL : Z.log2 Q1 <= Z.log2 Q2) by now apply Z.log2_le_mono.
  set (E1 := Z.max 0 (Z.log2 Q1 - 52)). set (E2 := Z.max 0 (Z.log2 Q2 - 52)).
  assert (HE1 : 0 <= E1) by (unfold E1; lia).
  assert (HE2 : 0 <= E2) by (unfold E2; lia).
  assert (HE : E1 <= E2) by (unfold E1, E2; lia).
  assert (Hp1 : 0 < 2 ^ E1) by (apply Z.pow_pos_nonneg; lia).
  assert (Hp2 : 0 < 2 ^ E2) by (apply Z.pow_pos_nonneg; lia).
  set (m1 := rne_div (a1 * P) (b1 * 2 ^ E1)).
  set (m2 := rne_div (a2 * P) (b2 * 2 ^ E2)).
  assert (Hm1 : 0 <= m1) by (apply rne_div_ge; nia).
  assert (Hm2 : 0 <= m2) by (apply rne_div_ge; nia).
  apply pack_leb; try assumption.
  destruct (Z.eq_dec E1 E2) as [Eq|Ne].
  - rewrite <- Eq. apply Z.mul_le_mono_nonneg_r; [lia |].
    unfold m1, m2. rewrite <- Eq. apply rne_div_mono; nia.
  - assert (HE2' : E2 = Z.log2 Q2 - 52) by (unfold E1, E2 in *; lia).
    assert (HL' : Z.log2 Q1 < Z.log2 Q2) by (unfold E1, E2 in *; lia).
    assert (HQ2 : 0 < Q2).
    { destruct (Z.le_gt_cases Q2 0) as [Hle|]; [| assumption].
      rewrite (Z.log2_nonpos Q2 Hle) in HL'.
      pose proof (Z.log2_nonneg Q1). lia. }
    set (L2 := Z.log2 Q2) in *.
    assert (HL2 : 0 <= L2) by apply Z.log2_nonneg.
    assert (Hlow : 2 ^ L2 <= Q2) by (apply Z.log2_spec; exact HQ2).
    assert (Hup : Q1 < 2 ^ L2).
    { destruct (Z.eq_dec Q1 0) as [->|Hnz];
        [apply Z.pow_pos_nonneg; lia |].
      pose proof (Z.log2_spec Q1 ltac:(lia)) as [_ Hs].
      apply Z.lt_le_trans with (1 := Hs).
      apply Z.pow_le_mono_r; lia. }
    (* a1 * P < b1 * 2 ^ L2 and b2 * 2 ^ L2 <= a2 * P *)
    assert (Hx1 : a1 * P < 2 ^ L2 * b1).
    { unfold Q1 in Hup.
      destruct (Z.lt_ge_cases (a1 * P) (2 ^ L2 * b1)) as [|Hge]; [assumption |].
      assert (2 ^ L2 <= a1 * P / b1) by (apply Z.div_le_lower_bound; lia).
      lia. }
    assert (Hx2 : 2 ^ L2 * b2 <= a2 * P).
    { unfold Q2 in Hlow. pose proof (Z.mul_div_le (a2 * P) b2 Hb2). nia. }
    assert (Hs2 : 2 ^ L2 = 2 ^ 52 * 2 ^ E2).
    { rewrite <- Z.pow_add_r by lia. f_equal. lia. }
    assert (Hs1 : 2 ^ L2 = 2 ^ (L2 - E1) * 2 ^ E1).
    { rewrite <- Z.pow_add_r by lia. f_equal. lia. }
    assert (Hb : 2 ^ 52 <= m2).
    { apply rne_div_ge; [nia |]. rewrite Z.mul_assoc, (Z.mul_comm (2 ^ 52)).
      rewrite <- Z.mul_assoc, <- Hs2. lia. }
    assert (Ht : m1 <= 2 ^ (L2 - E1)).
    { apply rne_div_le; [nia |]. rewrite Z.mul_assoc, (Z.mul_comm (2 ^ (L2 - E1))).
      rewrite <- Z.mul_assoc, <- Hs1. lia. }
    apply Z.le_trans with (2 ^ L2).
    + rewrite Hs1. apply Z.mul_le_mono_nonneg_r; lia.
    + rewrite Hs2. apply Z.mul_le_mono_nonneg_r; lia.
Qed.

End RoundingOrder.

Section FloatArithmetic.

Import F64.

Lemma round_sign (s : bool) (a b : Z) :
  round s a b = match round false a b with
                | NaN => NaN
                | Inf _ => Inf s
                | Fin _ m e => Fin s m e
                end.
Proof.
  unfold round, pack.
  destruct (2 ^ 2098 <=? _); [reflexivity |].
  destruct (_ =? 2 ^ 53); reflexivity.
Qed.

Lemma round_shape (a b : Z) :
  0 < a -> 0 < b ->
  round false a b = Inf false \/ exists m e, round false a b = Fin false m e.
Proof.
  intros Ha Hb. unfold round.
  assert (HP : 0 < 2 ^ 1074) by (apply Z.pow_pos_nonneg; lia).
  assert (HE : 0 <= round_exp a b) by (unfold round_exp; lia).
  assert (Hp : 0 < 2 ^ round_exp a b) by (apply Z.pow_pos_nonneg; lia).
  destruct (pack_cases (rne_div (a * 2 ^ 1074) (b * 2 ^ round_exp a b))
              (round_exp a b)) as [[-> _]|(n & e & -> & _)];
    [apply rne_div_ge; nia | exact HE | now left | right; eauto].
Qed.

Lemma abs_round (s : bool) (a b : Z) : abs (round s a b) = round false a b.
Proof.
  rewrite round_sign.
  unfold round, pack.
  destruct (2 ^ 2098 <=? _); [reflexivity |].
  destruct (_ =? 2 ^ 53); reflexivity.
Qed.

Lemma of_Z_pos (n : Z) : 0 < n -> of_Z n = round false n 1.
Proof.
  intros Hn. unfold of_Z, of_scaled.
  replace (n =? 0) with false by (symmetry; apply Z.eqb_neq; lia).
  replace (n <? 0) with false by (symmetry; apply Z.ltb_ge; lia).
  rewrite Z.abs_eq by lia. change (2 ^ Z.max 0 0) with 1.
  change (2 ^ Z.max 0 (- 0)) with 1. now rewrite Z.mul_1_r.
Qed.

Lemma abs_of_Z (n : Z) : abs (of_Z n) = of_Z (Z.abs n).
Proof.
  destruct (Z.lt_trichotomy n 0) as [H|[->|H]].
  - rewrite (of_Z_pos (Z.abs n)) by lia. unfold of_Z, of_scaled.
    replace (n =? 0) with false by (symmetry; apply Z.eqb_neq; lia).
    change (2 ^ Z.max 0 0) with 1. change (2 ^ Z.max 0 (- 0)) with 1.
    now rewrite Z.mul_1_r, abs_round.
  - reflexivity.
  - rewrite Z.abs_eq by lia. rewrite of_Z_pos by exact H. apply abs_round.
Qed.

Lemma of_Z_mono (n1 n2 : Z) :
  0 < n1 -> n1 <= n2 -> leb (of_Z n1) (of_Z n2) = true.
Proof.
  intros H1 H2. rewrite !of_Z_pos by lia. apply round_mono; lia.
Qed.

Lemma leb_Inf_r (x : float) :
  is_nan x = false -> leb x (Inf false) = true.
Proof. destruct x as [|[]|]; try reflexivity. discriminate. Qed.

(** An [int] below [float_overflow] in magnitude converts to a float. *)
Lemma to_float_in_range (n : Z) :
  Z.abs n < float_overflow -> to_float n = Returned (of_Z n).
Proof.
  intros H. unfold to_float.
  assert (Hp : forall k, 0 < k < float_overflow ->
                 exists m e, of_Z k = Fin false m e).
  { intros k Hk.
    pose proof (of_Z_mono k (float_overflow - 1) ltac:(lia) ltac:(lia)) as Hle.
    replace (of_Z (float_overflow - 1)) with (Fin false 9007199254740991 971)
      in Hle by (vm_compute; reflexivity).
    rewrite of_Z_pos in * by lia.
    destruct (round_shape k 1 ltac:(lia) ltac:(lia)) as [E|E];
      [rewrite E in Hle; discriminate | exact E]. }
  destruct (Z.lt_trichotomy n 0) as [Hn|[->|Hn]].
  - destruct (Hp (Z.abs n) ltac:(lia)) as (m & e & E).
    pose proof (abs_of_Z n) as Ha. rewrite E in Ha.
    destruct (of_Z n); try discriminate; reflexivity.
  - reflexivity.
  - destruct (Hp n ltac:(lia)) as (m & e & ->). reflexivity.
Qed.

Lemma abs_div (x : float) (md : N) (ed : Z) :
  (0 < md)%N ->
  abs (div x (Fin false md ed)) = div (abs x) (Fin false md ed).
Proof.
  intros Hd. destruct x as [|sx|sx mx ex]; try reflexivity.
  cbn [div abs].
  replace (md =? 0)%N with false by (symmetry; apply N.eqb_neq; lia).
  destruct (mx =? 0)%N; [reflexivity |].
  rewrite abs_round. reflexivity.
Qed.

(** Division by a positive float follows the order of the dividends. *)
Lemma div_mono (x y : float) (md : N) (ed : Z) :
  (0 < md)%N -> positive_finite x = true -> leb x y = true ->
  leb (div x (Fin false md ed)) (div y (Fin false md ed)) = true.
Proof.
  intros Hd Hx Hxy.
  destruct x as [|sx|[] mx ex]; try discriminate.
  cbn [positive_finite] in Hx. apply negb_true_iff, N.eqb_neq in Hx.
  assert (Hdx : exists a b, 0 < a /\ 0 < b /\
                  div (Fin false mx ex) (Fin false md ed) = round false a b).
  { cbn [div].
    replace (md =? 0)%N with false by (symmetry; apply N.eqb_neq; lia).
    replace (mx =? 0)%N with false by (symmetry; apply N.eqb_neq; lia).
    cbn [xorb]. do 2 eexists. split; [| split; [| reflexivity]].
    - assert (0 < 2 ^ Z.max 0 (ex - ed)) by (apply Z.pow_pos_nonneg; lia). nia.
    - assert (0 < 2 ^ Z.max 0 (ed - ex)) by (apply Z.pow_pos_nonneg; lia). nia. }
  destruct y as [|sy|sy my ey].
  - discriminate.
  - destruct sy; [discriminate |].
    destruct Hdx as (a & b & Ha & Hb & ->).
    change (div (Inf false) (Fin false md ed)) with (Inf false).
    apply leb_Inf_r.
    destruct (round_shape a b Ha Hb) as [->|(m & e & ->)]; reflexivity.
  - clear Hdx.
    set (u1 := Z.max 0 (ex - ed)). set (v1 := Z.max 0 (ed - ex)).
    set (u2 := Z.max 0 (ey - ed)). set (v2 := Z.max 0 (ed - ey)).
    unfold leb in Hxy.
    rewrite (compare_Fin_at false mx ex sy my ey (ex - (u1 + v2))) in Hxy
      by (unfold u1, v1, u2, v2; lia).
    replace (ex - (ex - (u1 + v2))) with (u1 + v2) in Hxy by lia.
    replace (ey - (ex - (u1 + v2))) with (u2 + v1) in Hxy
      by (unfold u1, v1, u2, v2; lia).
    assert (Hp1 : 0 < 2 ^ (u1 + v2))
      by (apply Z.pow_pos_nonneg; unfold u1, v2; lia).
    assert (Hp2 : 0 < 2 ^ (u2 + v1))
      by (apply Z.pow_pos_nonneg; unfold u2, v1; lia).
    assert (Hle : Z.of_N mx * 2 ^ (u1 + v2) <= signed sy my * 2 ^ (u2 + v1)).
    { unfold signed at 1 in Hxy.
      destruct (Z.compare_spec (Z.of_N mx * 2 ^ (u1 + v2))
                               (signed sy my * 2 ^ (u2 + v1)));
        try discriminate; lia. }
    assert (Hsy : sy = false /\ (0 < my)%N).
    { unfold signed in Hle. destruct sy; split; try reflexivity; nia. }
    destruct Hsy as [-> Hy]. unfold signed in Hle.
    cbn [div].
    replace (md =? 0)%N with false by (symmetry; apply N.eqb_neq; lia).
    replace (mx =? 0)%N with false by (symmetry; apply N.eqb_neq; lia).
    replace (my =? 0)%N with false by (symmetry; apply N.eqb_neq; lia).
    cbn [xorb]. fold u1 v1 u2 v2.
    assert (Hu1 : 0 < 2 ^ u1) by (apply Z.pow_pos_nonneg; unfold u1; lia).
    assert (Hv1 : 0 < 2 ^ v1) by (apply Z.pow_pos_nonneg; unfold v1; lia).
    assert (Hu2 : 0 < 2 ^ u2) by (apply Z.pow_pos_nonneg; unfold u2; lia).
    assert (Hv2 : 0 < 2 ^ v2) by (apply Z.pow_pos_nonneg; unfold v2; lia).
    apply round_mono; try nia.
    rewrite !Z.pow_add_r in Hle by (unfold u1, v1, u2, v2; lia).
    nia.
Qed.

End FloatArithmetic.

(** ** utils.py: [format_byte_size] *)

Section FormatByteSize.

Import F64.

Lemma length_append (s t : string) :
  String.length (s ++ t) = (String.length s + String.length t)%nat.
Proof. induction s as [|c s IH]; simpl; [reflexivity | now rewrite IH]. Qed.

Lemma fixed2_length (x : float) : (3 <= String.length (fixed2 x))%nat.
Proof.
  destruct x as [|[]|s m e]; cbn [fixed2]; try (simpl; lia).
  rewrite !length_append. cbn [String.length]. lia.
Qed.

(** The width 3 of the format never pads: two decimals take four
    characters at least. *)
Lemma format_f2_width3 (x : float) : F64.format_width 3 x = fixed2 x.
Proof.
  unfold format_width, pad. pose proof (fixed2_length x) as H.
  replace (3 - String.length (fixed2 x))%nat with 0%nat by lia. reflexivity.
Qed.

Lemma format_f2_width0 (x : float) : F64.format_width 0 x = fixed2 x.
Proof. reflexivity. Qed.

Variables (order : float) (suffix : string).
Hypothesis order_nonzero : is_zero order = false.

(** The loop stops at the first prefix under which the scaled number is
    below [order]. *)
Lemma loop_first (ps : list string) :
  forall (num : pynum) (i : nat),
    as_float num = Returned (float_of num) ->
    (i < List.length ps)%nat ->
    (forall j, (j < i)%nat -> abs_lt (scaled num order j) order = false) ->
    abs_lt (scaled num order i) order = true ->
    format_byte_size_loop num ps order suffix =
      Returned (two_decimals (scaled num order i) ++ nth i ps "" ++ suffix).
Proof.
  induction ps as [|p ps IH]; intros num i Hc Hi Hlt Hi'.
  - simpl in Hi. lia.
  - cbn [format_byte_size_loop]. destruct i as [|i].
    + cbn [scaled] in Hi'. rewrite Hi'. unfold format_f2. rewrite Hc.
      cbn [bind nth]. now rewrite format_f2_width3.
    + pose proof (Hlt 0%nat ltac:(lia)) as H0. cbn [scaled] in H0.
      rewrite H0. unfold truediv. rewrite Hc, order_nonzero. cbn [bind].
      rewrite (IH (PyFloat (div (float_of num) order)) i).
      * reflexivity.
      * reflexivity.
      * simpl in Hi. lia.
      * intros j Hj. apply (Hlt (S j)). lia.
      * exact Hi'.
Qed.

(** With no such prefix, the loop ends and the number is written with the
    prefix Y. *)
Lemma loop_none (ps : list string) :
  forall (num : pynum),
    as_float num = Returned (float_of num) ->
    (forall j, (j < List.length ps)%nat ->
       abs_lt (scaled num order j) order = false) ->
    format_byte_size_loop num ps order suffix =
      Returned (two_decimals (scaled num order (List.length ps)) ++ "Y" ++ suffix).
Proof.
  induction ps as [|p ps IH]; intros num Hc Hlt.
  - cbn [format_byte_size_loop List.length scaled]. unfold format_f2.
    rewrite Hc. reflexivity.
  - cbn [format_byte_size_loop].
    pose proof (Hlt 0%nat ltac:(simpl; lia)) as H0. cbn [scaled] in H0.
    rewrite H0. unfold truediv. rewrite Hc, order_nonzero. cbn [bind].
    rewrite (IH (PyFloat (div (float_of num) order))).
    + reflexivity.
    + reflexivity.
    + intros j Hj. apply (Hlt (S j)). simpl. lia.
Qed.

Lemma scaled_float (x : float) (j : nat) :
  scaled (PyFloat x) order j = PyFloat (Nat.iter j (fun y => div y order) x).
Proof.
  revert x. induction j as [|j IH]; intros x; [reflexivity |].
  cbn [scaled float_of]. rewrite IH. now rewrite Nat.iter_succ_r.
Qed.

Lemma scaled_int (n : Z) (j : nat) :
  scaled (PyInt n) order (S j) =
    PyFloat (Nat.iter (S j) (fun y => div y order) (of_Z n)).
Proof.
  cbn [scaled float_of]. rewrite scaled_float. now rewrite Nat.iter_succ_r.
Qed.

End FormatByteSize.

Section Ladder.

Import F64.

Variables (md : N) (ed : Z).
Hypothesis md_pos : (0 < md)%N.

Lemma abs_shrink (k : nat) (x : float) :
  abs (Nat.iter k (fun y => div y (Fin false md ed)) x) =
  Nat.iter k (fun y => div y (Fin false md ed)) (abs x).
Proof.
  induction k as [|k IH]; [reflexivity |].
  rewrite !Nat.iter_succ, abs_div by exact md_pos. now rewrite IH.
Qed.

(** Two numbers in order stay in order under repeated division, as long as
    the lesser stays a positive float. *)
Lemma shrink_mono (c0 a0 : float) (K : nat) :
  leb c0 a0 = true ->
  (forall k, (k < K)%nat ->
     positive_finite (Nat.iter k (fun y => div y (Fin false md ed)) c0) = true) ->
  forall k, (k <= K)%nat ->
    leb (Nat.iter k (fun y => div y (Fin false md ed)) c0)
        (Nat.iter k (fun y => div y (Fin false md ed)) a0) = true.
Proof.
  intros H0 Hpos. induction k as [|k IH]; intros Hk; [exact H0 |].
  rewrite !Nat.iter_succ.
  apply div_mono; [exact md_pos | apply Hpos; lia | apply IH; lia].
Qed.

End Ladder.

Section LadderExceeded.

Import F64.

Lemma ladder_length (order x : float) (k : nat) :
  List.length (ladder order x k) = k.
Proof.
  revert x. induction k as [|k IH]; intros x; [reflexivity |].
  cbn [ladder List.length]. now rewrite IH.
Qed.

Lemma ladder_nth (order : float) (k : nat) :
  forall (j : nat) (x : float), (j < k)%nat ->
    nth j (ladder order x k) zero = Nat.iter j (fun y => div y order) x.
Proof.
  induction k as [|k IH]; intros j x Hj; [lia |].
  cbn [ladder]. destruct j as [|j]; [reflexivity |].
  cbn [nth]. rewrite IH by lia. now rewrite Nat.iter_succ_r.
Qed.

(** From [order ^ 8] on, no step of the ladder brings the magnitude below
    [order]. *)
Lemma ladder_exceeded (D n : Z) :
  D = 1000 \/ D = 1024 -> D ^ 8 <= Z.abs n ->
  forall j, (j < 8)%nat ->
    abs_lt (scaled (PyInt n) (of_Z D) j) (of_Z D) = false.
Proof.
  intros HD Hn j Hj.
  assert (Hd : exists md ed, of_Z D = Fin false md ed /\ (0 < md)%N /\
            Z_ltb (Z.abs n) (Fin false md ed) = false /\
            forallb (fun c => positive_finite c && leb (Fin false md ed) c)
                    (ladder (Fin false md ed) (of_Z (D ^ 8)) 8) = true).
  { destruct HD as [-> | ->].
    - exists 8796093022208000%N, (-43).
      split; [vm_compute; reflexivity |]. split; [reflexivity |].
      split; [| vm_compute; reflexivity].
      unfold Z_ltb, signed. apply Z.ltb_ge.
      change (2 ^ Z.max 0 (- -43)) with (2 ^ 43).
      change (2 ^ Z.max 0 (-43)) with 1. change (1000 ^ 8) with
        1000000000000000000000000 in Hn.
      change (Z.of_N 8796093022208000) with (1000 * 2 ^ 43).
      assert (0 < 2 ^ 43) by (apply Z.pow_pos_nonneg; lia). nia.
    - exists 4503599627370496%N, (-42).
      split; [vm_compute; reflexivity |]. split; [reflexivity |].
      split; [| vm_compute; reflexivity].
      unfold Z_ltb, signed. apply Z.ltb_ge.
      change (2 ^ Z.max 0 (- -42)) with (2 ^ 42).
      change (2 ^ Z.max 0 (-42)) with 1. change (1024 ^ 8) with
        1208925819614629174706176 in Hn.
      change (Z.of_N 4503599627370496) with (1024 * 2 ^ 42).
      assert (0 < 2 ^ 42) by (apply Z.pow_pos_nonneg; lia). nia. }
  destruct Hd as (md & ed & Ed & Hmd & H0 & Hall).
  rewrite Ed. destruct j as [|j]; [exact H0 |].
  rewrite scaled_int. cbn [abs_lt].
  rewrite (abs_shrink md ed Hmd), abs_of_Z.
  rewrite forallb_forall in Hall.
  assert (Hc : forall k, (k < 8)%nat ->
            positive_finite
              (Nat.iter k (fun y => div y (Fin false md ed)) (of_Z (D ^ 8))) = true /\
            leb (Fin false md ed)
              (Nat.iter k (fun y => div y (Fin false md ed)) (of_Z (D ^ 8))) = true).
  { intros k Hk. apply andb_true_iff.
    rewrite <- (ladder_nth (Fin false md ed) 8 k) by exact Hk.
    apply Hall, nth_In. rewrite ladder_length. exact Hk. }
  apply ltb_leb.
  eapply leb_trans; [apply (Hc (S j) Hj) |].
  apply (shrink_mono md ed Hmd _ _ 8%nat).
  - apply of_Z_mono; [destruct HD as [-> | ->]; reflexivity | exact Hn].
  - intros k Hk. apply (Hc k Hk).
  - lia.
Qed.

End LadderExceeded.

Lemma format_byte_size_unfold (byte_size : Z) (units : string) (order : Z)
    (suffix : string) :
  unit_convention units order suffix ->
  format_byte_size byte_size (Some units) =
    format_byte_size_loop (PyInt byte_size) prefixes (F64.of_Z order) suffix /\
  F64.is_zero (F64.of_Z order) = false /\
  (order = 1000 \/ order = 1024).
Proof.
  intros [(-> & -> & ->)|(-> & -> & ->)];
    (split; [reflexivity | split; [vm_compute; reflexivity | auto]]).
Qed.

(** C5, as the code has it.  For a byte count that converts to a float
    (its magnitude is below [2^1024 - 2^970]), [format_byte_size] with units
    ['SI'] divides repeatedly by 1000 and returns the number, written with
    two decimals, under the first prefix of the ladder '', K, M, G, T, P, E,
    Z at which its magnitude is below 1000, followed by 'B'; with units
    ['binary'] it does the same with 1024 and 'iB'.  When no step of the
    ladder brings the magnitude below the divisor, as is the case from
    [divisor ^ 8] on, the number divided eight times is returned under the
    prefix Y. *)
Theorem format_byte_size_spec (byte_size : Z) (units : string) (order : Z)
    (suffix : string) :
  unit_convention units order suffix ->
  Z.abs byte_size < float_overflow ->
  let num := scaled (PyInt byte_size) (F64.of_Z order) in
  (forall i, (i < 8)%nat ->
     (forall j, (j < i)%nat -> abs_lt (num j) (F64.of_Z order) = false) ->
     abs_lt (num i) (F64.of_Z order) = true ->
     format_byte_size byte_size (Some units) =
       Returned (two_decimals (num i)
                 ++ nth i [""; "K"; "M"; "G"; "T"; "P"; "E"; "Z"] ""
                 ++ suffix)) /\
  ((forall j, (j < 8)%nat -> abs_lt (num j) (F64.of_Z order) = false) ->
   format_byte_size byte_size (Some units) =
     Returned (two_decimals (num 8%nat) ++ "Y" ++ suffix)) /\
  (order ^ 8 <= Z.abs byte_size ->
   format_byte_size byte_size (Some units) =
     Returned (two_decimals (num 8%nat) ++ "Y" ++ suffix)).
Proof.
  intros Hu Hr num.
  destruct (format_byte_size_unfold byte_size units order suffix Hu)
    as (-> & Hz & HD).
  assert (Hc : as_float (PyInt byte_size) = Returned (float_of (PyInt byte_size)))
    by (apply to_float_in_range; exact Hr).
  assert (Hnone :
    (forall j, (j < 8)%nat -> abs_lt (num j) (F64.of_Z order) = false) ->
    format_byte_size_loop (PyInt byte_size) prefixes (F64.of_Z order) suffix =
      Returned (two_decimals (num 8%nat) ++ "Y" ++ suffix)).
  { intros H. apply (loop_none (F64.of_Z order) suffix Hz prefixes); assumption. }
  split; [| split].
  - intros i Hi Hlt Hi'.
    apply (loop_first (F64.of_Z order) suffix Hz prefixes); assumption.
  - exact Hnone.
  - intros Hbig. apply Hnone. intros j Hj.
    apply ladder_exceeded; assumption.
Qed.

Lemma format_byte_size_spec_witness :
  format_byte_size 123456789 (Some "SI") =
    Returned (two_decimals (scaled (PyInt 123456789) (F64.of_Z 1000) 2)
              ++ nth 2 [""; "K"; "M"; "G"; "T"; "P"; "E"; "Z"] ""
              ++ "B").
Proof.
  refine (proj1 (format_byte_size_spec 123456789 "SI" 1000 "B" _ _) 2%nat _ _ _).
  - left. repeat split.
  - vm_compute. reflexivity.
  - lia.
  - intros [|[|j]] Hj; [vm_compute; reflexivity | vm_compute; reflexivity | lia].
  - vm_compute. reflexivity.
Defined.

(** C5, as stated, fails: [2 ^ 1024] is a byte count beyond the whole
    ladder, and [format_byte_size] returns no string for it, the division
    raising [OverflowError]. *)
Lemma format_byte_size_overflow :
  1000 ^ 8 <= Z.abs (2 ^ 1024) /\
  format_byte_size (2 ^ 1024) (Some "SI") = Raised OverflowError.
Proof. split; [vm_compute; discriminate | vm_compute; reflexivity]. Qed.

(** The formats on a few byte counts. *)
Example format_byte_size_examples :
  format_byte_size 0 None = Returned "0.00B" /\
  format_byte_size 999 None = Returned "999.00B" /\
  format_byte_size 1000 (Some "SI") = Returned "1.00KB" /\
  format_byte_size 123456789 (Some "SI") = Returned "123.46MB" /\
  format_byte_size 123456789 (Some "binary") = Returned "117.74MiB" /\
  format_byte_size (-2048) (Some "binary") = Returned "-2.00KiB" /\
  format_byte_size (10 ^ 24) (Some "SI") = Returned "1.00YB" /\
  format_byte_size (2 ^ 80) (Some "binary") = Returned "1.00YiB".
Proof. vm_compute. repeat split. Qed.


(** * Further properties *)

(** ** checks/general.py *)

Section GeneralChecksMore.

Import PyStr.

Lemma lower_char_idem (c : ascii) : lower_char (lower_char c) = lower_char c.
Proof. destruct c as [[] [] [] [] [] [] [] []]; reflexivity. Qed.

Lemma lower_char_space (c : ascii) :
  Ascii.eqb (lower_char c) " " = Ascii.eqb c " ".
Proof. destruct c as [[] [] [] [] [] [] [] []]; reflexivity. Qed.

Lemma lower_idem (s : string) : lower (lower s) = lower s.
Proof.
  induction s as [|c s IH]; [reflexivity |].
  cbn [lower]. now rewrite lower_char_idem, IH.
Qed.

Lemma lower_append (s t : string) : lower (s ++ t) = lower s ++ lower t.
Proof.
  induction s as [|c s IH]; [reflexivity |].
  cbn [lower append]. now rewrite IH.
Qed.

Lemma lower_periods (n : nat) : lower (replicate n ".") = replicate n ".".
Proof.
  induction n as [|n IH]; [reflexivity |].
  cbn [replicate lower]. now rewrite IH.
Qed.

Lemma replicate_add (a b : nat) (c : ascii) :
  replicate (a + b) c = replicate a c ++ replicate b c.
Proof.
  induction a as [|a IH]; [reflexivity |].
  cbn [Nat.add replicate append]. now rewrite IH.
Qed.

Lemma strip_spaces_lower (d : string) :
  String.eqb (strip " " (lower d)) "" = String.eqb (strip " " d) "".
Proof.
  assert (H : all_chars (fun c => mem c " ") (lower d)
              = all_chars (fun c => mem c " ") d).
  { induction d as [|c d IH]; [reflexivity |].
    cbn [lower all_chars]. rewrite IH, !mem_single, lower_char_space.
    reflexivity. }
  destruct (String.eqb (strip " " d) "") eqn:E.
  - apply String.eqb_eq. apply strip_all. rewrite H. apply strip_all.
    now apply String.eqb_eq.
  - apply String.eqb_neq. intros E'. apply strip_all in E'. rewrite H in E'.
    apply strip_all in E'. rewrite E' in E. discriminate.
Qed.

Lemma description_flagged_lower (d : string) :
  description_flagged (lower d) = description_flagged d.
Proof.
  unfold description_flagged. now rewrite strip_spaces_lower, lower_idem.
Qed.

Lemma description_flagged_spec (d : string) :
  description_flagged d = true <-> spaces_only d \/ placeholder_like d.
Proof.
  unfold description_flagged.
  rewrite orb_true_iff, String.eqb_eq, strip_spaces, in_list_spec.
  unfold placeholder_like. now rewrite strip_periods_placeholder.
Qed.

(** What the registered check returns on a description string. *)
Lemma check_description_str (o : pyobj) (d : string) :
  has_str o "description" d ->
  (description_flagged d = false -> check_description o = Returned None) /\
  (description_flagged d = true ->
   exists msg, check_description o =
     Returned (Some (finding BEST_PRACTICE_SUGGESTION "check_description" msg o))).
Proof.
  intros Hd. unfold check_description, register_check, description_flagged.
  rewrite (check_description_body_str o d Hd).
  destruct (String.eqb (strip " " d) "");
    [| destruct (in_list (strip "." (lower d)) COMMON_DESCRIPTION_PLACEHOLDERS)];
    (split; intros H; try discriminate H; try reflexivity; now eexists).
Qed.

End GeneralChecksMore.

(** X1.  On an object without a name attribute, [check_name_slashes] makes
    no finding and raises nothing. *)
Theorem check_name_slashes_absent (o : pyobj) :
  attrs o "name" = None ->
  check_name_slashes_body o = Returned None /\
  check_name_slashes o = Returned None.
Proof.
  intros H. unfold check_name_slashes, register_check,
    check_name_slashes_body, hasattr. rewrite H. split; reflexivity.
Qed.

Lemma check_name_slashes_absent_witness :
  check_name_slashes_body (one_attr "description" (PyStr "raw data")) = Returned None /\
  check_name_slashes (one_attr "description" (PyStr "raw data")) = Returned None.
Proof.
  apply (check_name_slashes_absent (one_attr "description" (PyStr "raw data"))).
  reflexivity.
Defined.

(** X2.  On an object whose name attribute is [None], [check_name_slashes]
    raises [TypeError]: the attribute is there, and [None] holds no
    characters to search. *)
Theorem check_name_slashes_None (o : pyobj) :
  attrs o "name" = Some PyNone ->
  check_name_slashes_body o = Raised TypeError /\
  check_name_slashes o = Raised TypeError.
Proof.
  intros H. unfold check_name_slashes, register_check,
    check_name_slashes_body, hasattr, getattr. rewrite H. split; reflexivity.
Qed.

Lemma check_name_slashes_None_witness :
  check_name_slashes_body (one_attr "name" PyNone) = Raised TypeError /\
  check_name_slashes (one_attr "name" PyNone) = Raised TypeError.
Proof.
  apply (check_name_slashes_None (one_attr "name" PyNone)). reflexivity.
Defined.

(** X3.  The message of [check_description] tells the two cases apart: a
    description that is [None], empty or made of spaces is reported as
    missing; any other reported description is quoted in the message as it
    was written, not lower-cased or stripped. *)
Theorem check_description_messages (o : pyobj) (v : pyval) :
  attrs o "description" = Some v ->
  (v = PyNone \/ (exists d, v = PyStr d /\ spaces_only d) ->
   check_description o =
     Returned (Some (finding BEST_PRACTICE_SUGGESTION "check_description"
                       "Description is missing." o))) /\
  (forall d, v = PyStr d -> ~ spaces_only d -> placeholder_like d ->
   check_description o =
     Returned (Some (finding BEST_PRACTICE_SUGGESTION "check_description"
                       ("Description (" ++ d ++ ") is a placeholder.") o))).
Proof.
  intros Hv. unfold check_description, register_check. split.
  - intros [-> | (d & -> & Hs)].
    + now rewrite (check_description_body_None o Hv).
    + rewrite (check_description_body_str o d Hv).
      apply strip_spaces in Hs. now rewrite Hs.
  - intros d -> Hs Hp. rewrite (check_description_body_str o d Hv).
    destruct (String.eqb (PyStr.strip " " d) "") eqn:Es.
    + apply String.eqb_eq, strip_spaces in Es. contradiction.
    + unfold placeholder_like in Hp.
      apply strip_periods_placeholder, in_list_spec in Hp. now rewrite Hp.
Qed.

Lemma check_description_messages_witness :
  check_description (one_attr "description" (PyStr "NONE.")) =
    Returned (Some (finding BEST_PRACTICE_SUGGESTION "check_description"
                      "Description (NONE.) is a placeholder."
                      (one_attr "description" (PyStr "NONE.")))).
Proof.
  refine (proj2 (check_description_messages
                   (one_attr "description" (PyStr "NONE."))
                   (PyStr "NONE.") eq_refl) "NONE." eq_refl _ _).
  - intros H. specialize (H "N"%char). unfold has_char in H. simpl in H.
    assert (E : "N"%char = " "%char) by (apply H; auto). discriminate E.
  - exists "none", 0%nat, 1%nat. simpl. tauto.
Defined.

(** X4.  [check_description] takes no account of case: a description and
    its lower-cased form are either both reported or both passed. *)
Theorem check_description_case_blind (o o' : pyobj) (d : string) :
  has_str o "description" d ->
  has_str o' "description" (PyStr.lower d) ->
  (check_description o = Returned None <->
   check_description o' = Returned None).
Proof.
  intros Hd Hd'.
  destruct (check_description_str o d Hd) as [Hn Hf].
  destruct (check_description_str o' (PyStr.lower d) Hd') as [Hn' Hf'].
  rewrite description_flagged_lower in Hn', Hf'.
  destruct (description_flagged d).
  - destruct (Hf eq_refl) as [m ->]. destruct (Hf' eq_refl) as [m' ->].
    split; discriminate.
  - rewrite (Hn eq_refl), (Hn' eq_refl). tauto.
Qed.

Lemma check_description_case_blind_witness :
  check_description (one_attr "description" (PyStr "No Description")) = Returned None <->
  check_description (one_attr "description" (PyStr "no description")) = Returned None.
Proof.
  apply (check_description_case_blind
           (one_attr "description" (PyStr "No Description"))
           (one_attr "description" (PyStr "no description"))
           "No Description"); reflexivity.
Defined.

(** X5.  Periods around a placeholder do not hide it: a description that
    [check_description] takes for a placeholder is still reported with any
    number of periods added before and after it. *)
Theorem check_description_periods (o : pyobj) (d : string) (a b : nat) :
  placeholder_like d ->
  has_str o "description"
    (PyStr.replicate a "." ++ d ++ PyStr.replicate b ".") ->
  exists msg, check_description o =
    Returned (Some (finding BEST_PRACTICE_SUGGESTION "check_description" msg o)).
Proof.
  intros (p & a' & b' & Hp & E) Ho.
  apply (check_description_str o _ Ho).
  apply description_flagged_spec. right. exists p, (a + a')%nat, (b' + b)%nat.
  split; [exact Hp |].
  rewrite !lower_append, !lower_periods, E, !replicate_add.
  now rewrite !append_assoc.
Qed.

Lemma check_description_periods_witness :
  exists msg,
    check_description (one_attr "description" (PyStr "..No desc...")) =
      Returned (Some (finding BEST_PRACTICE_SUGGESTION "check_description" msg
                        (one_attr "description" (PyStr "..No desc...")))).
Proof.
  apply (check_description_periods
           (one_attr "description" (PyStr "..No desc...")) "No desc." 2 2).
  - exists "no desc", 0%nat, 1%nat. simpl. tauto.
  - reflexivity.
Defined.

(** ** utils.py: the series helpers *)

Section SeriesMore.

Import F64.

Lemma ltb_zero_Fin (s : bool) (n : N) (e : Z) :
  ltb zero (Fin s n e) = negb s && negb (n =? 0)%N.
Proof.
  unfold ltb, zero. rewrite (compare_Fin_at false 0 0 s n e (Z.min 0 e)) by lia.
  assert (Hp : 0 < 2 ^ (e - Z.min 0 e)) by (apply Z.pow_pos_nonneg; lia).
  unfold signed. cbn [Z.of_N Z.mul].
  destruct (N.eqb_spec n 0) as [->|Hn].
  - destruct s; reflexivity.
  - destruct s; cbn [negb andb].
    + destruct (Z.compare_spec 0 (- Z.of_N n * 2 ^ (e - Z.min 0 e)));
        try reflexivity. nia.
    + destruct (Z.compare_spec 0 (Z.of_N n * 2 ^ (e - Z.min 0 e)));
        try reflexivity; nia.
Qed.

(** A quotient of [2^-1074] or more rounds to a positive float. *)
Lemma round_positive (a b : Z) :
  0 < a -> 0 < b -> b <= a * 2 ^ 1074 -> ltb zero (round false a b) = true.
Proof.
  intros Ha Hb H. unfold round, round_exp.
  set (A := a * 2 ^ 1074) in *. set (Q := A / b).
  assert (HQ : 1 <= Q) by (apply Z.div_le_lower_bound; lia).
  set (E := Z.max 0 (Z.log2 Q - 52)).
  assert (HE : 0 <= E) by (unfold E; lia).
  assert (HL : 2 ^ E <= Q).
  { apply Z.le_trans with (2 ^ Z.log2 Q).
    - apply Z.pow_le_mono_r; [lia |]. pose proof (Z.log2_nonneg Q).
      unfold E. lia.
    - apply Z.log2_spec. lia. }
  assert (Hp : 0 < 2 ^ E) by (apply Z.pow_pos_nonneg; lia).
  assert (Hm : 1 <= rne_div A (b * 2 ^ E)).
  { apply rne_div_ge; [nia |]. pose proof (Z.mul_div_le A b Hb). fold Q in H0.
    nia. }
  destruct (pack_cases (rne_div A (b * 2 ^ E)) E ltac:(lia) HE)
    as [[-> _]|(n & e & -> & He & V & _)]; [reflexivity |].
  rewrite ltb_zero_Fin. cbn [negb andb]. apply negb_true_iff, N.eqb_neq.
  intros ->. cbn [Z.of_N Z.mul] in V. nia.
Qed.

Lemma round_not_positive (a b : Z) : ltb zero (round true a b) = false.
Proof.
  unfold round, pack.
  destruct (2 ^ 2098 <=? _); [reflexivity |].
  destruct (_ =? 2 ^ 53); now rewrite ltb_zero_Fin.
Qed.

(** The difference of two floats is positive exactly when the first is
    the greater. *)
Lemma sub_positive (x y : float) :
  representable x -> representable y -> ltb zero (sub y x) = ltb x y.
Proof.
  destruct x as [|sx|sx mx ex], y as [|sy|sy my ey]; intros Hx Hy;
    try reflexivity.
  - destruct sx, sy; reflexivity.
  - destruct sx; reflexivity.
  - cbn [representable] in Hx, Hy.
    unfold sub, opp. cbn [add]. unfold ltb at 2. cbn [compare].
    rewrite (Z.min_comm ey ex). set (e := Z.min ex ey).
    replace (signed (negb sx) mx) with (- signed sx mx)
      by (unfold signed; destruct sx; simpl; lia).
    set (Vx := signed sx mx * 2 ^ (ex - e)).
    set (Vy := signed sy my * 2 ^ (ey - e)).
    replace (Vy + - signed sx mx * 2 ^ (ex - e)) with (Vy - Vx)
      by (unfold Vx; ring).
    destruct (Z.compare_spec Vx Vy) as [E|E|E].
    + replace (Vy - Vx =? 0) with true by (symmetry; apply Z.eqb_eq; lia).
      now rewrite ltb_zero_Fin, andb_false_r.
    + replace (Vy - Vx =? 0) with false by (symmetry; apply Z.eqb_neq; lia).
      unfold of_scaled.
      replace (Vy - Vx =? 0) with false by (symmetry; apply Z.eqb_neq; lia).
      replace (Vy - Vx <? 0) with false by (symmetry; apply Z.ltb_ge; lia).
      apply round_positive.
      * assert (0 < 2 ^ Z.max 0 e) by (apply Z.pow_pos_nonneg; lia).
        rewrite Z.abs_eq by lia. nia.
      * apply Z.pow_pos_nonneg; lia.
      * assert (0 < 2 ^ Z.max 0 e) by (apply Z.pow_pos_nonneg; lia).
        assert (2 ^ Z.max 0 (- e) <= 2 ^ 1074)
          by (apply Z.pow_le_mono_r; unfold e; lia).
        rewrite Z.abs_eq by lia. nia.
    + replace (Vy - Vx =? 0) with false by (symmetry; apply Z.eqb_neq; lia).
      unfold of_scaled.
      replace (Vy - Vx =? 0) with false by (symmetry; apply Z.eqb_neq; lia).
      replace (Vy - Vx <? 0) with true by (symmetry; apply Z.ltb_lt; lia).
      apply round_not_positive.
Qed.

Lemma slice_to_length (A : Type) (a : list A) (stop : option Z) :
  (List.length (np.slice_to a stop) <= List.length a)%nat.
Proof.
  destruct stop as [n|]; simpl; [| lia].
  destruct (0 <=? n); rewrite length_firstn; lia.
Qed.

Lemma slice_to_nth (a : list float) (stop : option Z) (i : nat) :
  (i < List.length (np.slice_to a stop))%nat ->
  nth i (np.slice_to a stop) zero = nth i a zero.
Proof.
  intros Hi. destruct (slice_to_prefix _ a stop) as [rest E].
  rewrite E at 2. now rewrite app_nth1.
Qed.

Lemma repeat_nth (x d : float) (n i : nat) :
  (i < n)%nat -> nth i (repeat x n) d = x.
Proof.
  revert i. induction n as [|n IH]; intros i Hi; [lia |].
  destruct i as [|i]; [reflexivity |]. cbn [repeat nth]. apply IH. lia.
Qed.

End SeriesMore.

(** X6.  On floats of binary64, [is_ascending_series] returns [True]
    exactly when each element of the slice [series[:nelems]] is less than
    the next: taking differences loses nothing, since the difference of two
    distinct floats never rounds to zero. *)
Theorem is_ascending_series_increasing (series : list F64.float)
    (nelems : option Z) :
  (forall x, In x series -> representable x) ->
  (is_ascending_series series nelems = true <->
   increasing (np.slice_to series nelems)).
Proof.
  intros Hr. unfold is_ascending_series. rewrite ascending_iff.
  unfold strictly_ascending, increasing, step.
  assert (Hs : forall i, (i < List.length (np.slice_to series nelems))%nat ->
                 representable (nth i (np.slice_to series nelems) F64.zero)).
  { intros i Hi. apply Hr. rewrite slice_to_nth by exact Hi.
    apply nth_In. pose proof (slice_to_length _ series nelems). lia. }
  split; intros H i Hi; specialize (H i Hi).
  - rewrite sub_positive in H by (apply Hs; lia). exact H.
  - rewrite sub_positive by (apply Hs; lia). exact H.
Qed.

Lemma is_ascending_series_increasing_witness :
  is_ascending_series [F64.of_Z 1; F64.of_Z 2; F64.of_Z 4] None = true <->
  increasing (np.slice_to [F64.of_Z 1; F64.of_Z 2; F64.of_Z 4] None).
Proof.
  apply (is_ascending_series_increasing
           [F64.of_Z 1; F64.of_Z 2; F64.of_Z 4] None).
  intros x [<-|[<-|[<-|[]]]]; vm_compute; discriminate.
Defined.

(** X7.  A slice of fewer than two elements is ascending: for a series of
    fewer than two elements, and for [nelems] 0 or 1 on any series,
    [is_ascending_series] returns [True]. *)
Theorem is_ascending_series_short (series : list F64.float)
    (nelems : option Z) :
  (List.length series < 2)%nat \/
  (exists n, nelems = Some n /\ 0 <= n <= 1) ->
  is_ascending_series series nelems = true.
Proof.
  intros H. unfold is_ascending_series. apply ascending_iff.
  intros i Hi. exfalso.
  destruct H as [H|(n & -> & Hn)].
  - pose proof (slice_to_length _ series nelems). lia.
  - unfold np.slice_to in Hi.
    replace (0 <=? n) with true in Hi by (symmetry; apply Z.leb_le; lia).
    rewrite length_firstn in Hi. lia.
Qed.

Lemma is_ascending_series_short_witness :
  is_ascending_series [F64.of_Z 9; F64.of_Z 3; F64.of_Z 1] (Some 1) = true.
Proof.
  apply (is_ascending_series_short [F64.of_Z 9; F64.of_Z 3; F64.of_Z 1] (Some 1)).
  right. exists 1. split; [reflexivity | lia].
Defined.

(** X8.  A series that is ascending as a whole is ascending on every
    slice [series[:nelems]]: looking at fewer elements can only accept
    more. *)
Theorem is_ascending_series_prefix (series : list F64.float)
    (nelems : option Z) :
  is_ascending_series series None = true ->
  is_ascending_series series nelems = true.
Proof.
  unfold is_ascending_series. rewrite !ascending_iff.
  change (np.slice_to series None) with series.
  intros H i Hi. unfold step.
  rewrite !slice_to_nth by lia.
  apply H. pose proof (slice_to_length _ series nelems). lia.
Qed.

Lemma is_ascending_series_prefix_witness :
  is_ascending_series [F64.of_Z 1; F64.of_Z 2; F64.of_Z 4] (Some 2) = true.
Proof.
  apply (is_ascending_series_prefix [F64.of_Z 1; F64.of_Z 2; F64.of_Z 4] (Some 2)).
  vm_compute. reflexivity.
Defined.

(** X9.  A NaN is never part of an ascending series: if the slice
    [series[:nelems]] has two elements or more and one of them is NaN,
    [is_ascending_series] returns [False]. *)
Theorem is_ascending_series_nan (series : list F64.float)
    (nelems : option Z) :
  (2 <= List.length (np.slice_to series nelems))%nat ->
  In F64.NaN (np.slice_to series nelems) ->
  is_ascending_series series nelems = false.
Proof.
  intros Hl Hin. unfold is_ascending_series.
  destruct (np.all_positive (np.diff (np.slice_to series nelems))) eqn:E;
    [| reflexivity].
  apply ascending_iff in E.
  destruct (In_nth _ _ F64.zero Hin) as (k & Hk & Ek).
  destruct (Nat.lt_ge_cases (S k) (List.length (np.slice_to series nelems)))
    as [Hlt|Hge].
  - specialize (E k Hlt). unfold step in E. rewrite Ek in E.
    unfold F64.sub in E. cbn [F64.opp] in E.
    destruct (nth (S k) (np.slice_to series nelems) F64.zero); discriminate.
  - destruct k as [|k]; [lia |].
    specialize (E k Hk). unfold step in E. rewrite Ek in E. discriminate.
Qed.

Lemma is_ascending_series_nan_witness :
  is_ascending_series [F64.of_Z 1; F64.NaN; F64.of_Z 3] None = false.
Proof.
  apply (is_ascending_series_nan [F64.of_Z 1; F64.NaN; F64.of_Z 3] None).
  - simpl. lia.
  - right. left. reflexivity.
Defined.

(** X10.  A series of two elements is regular whatever they are, for
    every tolerance: it has one difference only. *)
Theorem check_regular_series_pair (x y : F64.float)
    (tolerance_decimals : option Z) :
  check_regular_series [x; y] tolerance_decimals = true.
Proof.
  unfold check_regular_series. apply Nat.eqb_eq.
  destruct tolerance_decimals; apply regular_iff;
    (split; [simpl; lia |]);
    intros [|i] [|j] Hi Hj; simpl in Hi, Hj; try lia; apply same_refl.
Qed.

(** X11.  Regular is not ascending: a series that repeats one value, at
    least twice, is regular for every tolerance, and it is not
    ascending. *)
Theorem constant_series_regular (x : F64.float) (n : nat)
    (tolerance_decimals : option Z) :
  (2 <= n)%nat ->
  check_regular_series (repeat x n) tolerance_decimals = true /\
  is_ascending_series (repeat x n) None = false.
Proof.
  intros Hn. split.
  - unfold check_regular_series. apply Nat.eqb_eq.
    assert (Hs : forall i, (S i < n)%nat ->
                   step (repeat x n) i = F64.sub x x).
    { intros i Hi. unfold step. now rewrite !repeat_nth by lia. }
    destruct tolerance_decimals; apply regular_iff;
      (split; [rewrite repeat_length; lia |]);
      intros i j Hi Hj; rewrite repeat_length in Hi, Hj;
      rewrite !Hs by lia; apply same_refl.
  - unfold is_ascending_series.
    destruct (np.all_positive (np.diff (np.slice_to (repeat x n) None))) eqn:E;
      [| reflexivity].
    apply ascending_iff in E. change (np.slice_to (repeat x n) None)
      with (repeat x n) in E.
    specialize (E 0%nat). rewrite repeat_length in E. specialize (E ltac:(lia)).
    unfold step in E. rewrite !repeat_nth in E by lia.
    rewrite sub_diag_not_positive in E. discriminate.
Qed.

Lemma constant_series_regular_witness :
  check_regular_series (repeat (F64.of_Z 7) 3) None = true /\
  is_ascending_series (repeat (F64.of_Z 7) 3) None = false.
Proof. apply (constant_series_regular (F64.of_Z 7) 3 None). lia. Defined.

(** ** utils.py: [format_byte_size], further *)

Section FormatMore.

Import F64.

Lemma rne_div_exact (c b : Z) : 0 < b -> rne_div (c * b) b = c.
Proof.
  intros Hb. unfold rne_div. rewrite Z.div_mul, Z.mod_mul by lia.
  now replace (2 * 0 ?= b) with Lt by (symmetry; apply Z.compare_lt_iff; lia).
Qed.

(** An integer of 53 bits at most converts exactly. *)
Lemma of_Z_exact (n : Z) :
  0 < n < 2 ^ 53 ->
  of_Z n = Fin false (Z.to_N (n * 2 ^ (52 - Z.log2 n))) (Z.log2 n - 52).
Proof.
  intros [Hn Hb]. rewrite of_Z_pos by exact Hn.
  set (L := Z.log2 n).
  assert (HL : 0 <= L < 53).
  { split; [apply Z.log2_nonneg | apply Z.log2_lt_pow2; lia]. }
  assert (Hs : 2 ^ L <= n < 2 ^ Z.succ L) by (apply Z.log2_spec; exact Hn).
  unfold round, round_exp. rewrite Z.div_1_r.
  rewrite Z.log2_mul_pow2 by lia. fold L.
  replace (Z.max 0 (1074 + L - 52)) with (L + 1022) by lia.
  replace (n * 2 ^ 1074) with (n * 2 ^ (52 - L) * (1 * 2 ^ (L + 1022))).
  2:{ rewrite Z.mul_1_l, <- Z.mul_assoc, <- Z.pow_add_r by lia.
      do 2 f_equal. lia. }
  rewrite rne_div_exact by (rewrite Z.mul_1_l; apply Z.pow_pos_nonneg; lia).
  set (m := n * 2 ^ (52 - L)).
  assert (Hm : 0 < m < 2 ^ 53).
  { unfold m. assert (0 < 2 ^ (52 - L)) by (apply Z.pow_pos_nonneg; lia).
    split; [nia |].
    replace (2 ^ 53) with (2 ^ Z.succ L * 2 ^ (52 - L)).
    - apply Z.mul_lt_mono_pos_r; lia.
    - rewrite <- Z.pow_add_r by lia. f_equal. lia. }
  unfold pack.
  replace (L + 1022 - 1074 + 1074) with (L + 1022) by lia.
  replace (2 ^ 2098 <=? m * 2 ^ (L + 1022)) with false.
  2:{ symmetry. apply Z.leb_gt.
      apply Z.lt_le_trans with (2 ^ 53 * 2 ^ (L + 1022)).
      - apply Z.mul_lt_mono_pos_r; [apply Z.pow_pos_nonneg; lia | lia].
      - rewrite <- Z.pow_add_r by lia. apply Z.pow_le_mono_r; lia. }
  replace (m =? 2 ^ 53) with false by (symmetry; apply Z.eqb_neq; lia).
  f_equal. lia.
Qed.

Lemma of_Z_neg (n : Z) : 0 < n -> of_Z (- n) = opp (of_Z n).
Proof.
  intros Hn. rewrite (of_Z_pos n Hn). unfold of_Z, of_scaled.
  replace (- n =? 0) with false by (symmetry; apply Z.eqb_neq; lia).
  replace (- n <? 0) with true by (symmetry; apply Z.ltb_lt; lia).
  rewrite Z.abs_opp, Z.abs_eq by lia.
  change (2 ^ Z.max 0 0) with 1. change (2 ^ Z.max 0 (- 0)) with 1.
  rewrite Z.mul_1_r, round_sign.
  destruct (round_shape n 1 Hn ltac:(lia)) as [->|(m & e & ->)]; reflexivity.
Qed.

(** An integer of 53 bits at most is written as it is, with two zeros for
    decimals. *)
Lemma fixed2_of_Z (n : Z) :
  Z.abs n < 2 ^ 53 ->
  fixed2 (of_Z n) =
    (if n <? 0 then "-" else "") ++ decimal (Z.abs n) ++ ".00".
Proof.
  intros Hn.
  assert (Hpos : forall k, 0 < k < 2 ^ 53 -> forall s,
            fixed2 (match of_Z k with
                    | Fin _ m e => Fin s m e
                    | f => f
                    end) = (if s then "-" else "") ++ decimal k ++ ".00").
  { intros k Hk s. rewrite (of_Z_exact k Hk). set (L := Z.log2 k).
    assert (HL : 0 <= L < 53).
    { split; [apply Z.log2_nonneg | apply Z.log2_lt_pow2; lia]. }
    assert (Hp : 0 < 2 ^ (52 - L)) by (apply Z.pow_pos_nonneg; lia).
    cbn [fixed2]. rewrite Z2N.id by nia.
    replace (Z.max 0 (L - 52)) with 0 by lia.
    replace (Z.max 0 (- (L - 52))) with (52 - L) by lia.
    replace (k * 2 ^ (52 - L) * 100 * 2 ^ 0) with (k * 100 * 2 ^ (52 - L))
      by (rewrite Z.pow_0_r; ring).
    rewrite rne_div_exact by exact Hp.
    rewrite (Z.div_mul k 100) by lia.
    replace (k * 100) with (k * 10 * 10) by ring.
    rewrite (Z.div_mul (k * 10) 10) by lia.
    rewrite !Z.mod_mul by lia.
    reflexivity. }
  destruct (Z.lt_trichotomy n 0) as [H|[->|H]].
  - replace (n <? 0) with true by (symmetry; apply Z.ltb_lt; lia).
    replace n with (- Z.abs n) at 1 by lia.
    rewrite of_Z_neg by lia.
    specialize (Hpos (Z.abs n) ltac:(lia) true).
    destruct (of_Z (Z.abs n)) as [|s'|s' m e] eqn:E;
      rewrite (of_Z_exact (Z.abs n)) in E by lia; try discriminate.
    injection E as <- _ _. exact Hpos.
  - reflexivity.
  - replace (n <? 0) with false by (symmetry; apply Z.ltb_ge; lia).
    rewrite Z.abs_eq by lia.
    specialize (Hpos n ltac:(lia) false).
    destruct (of_Z n) as [|s'|s' m e] eqn:E;
      rewrite (of_Z_exact n) in E by lia; try discriminate.
    injection E as <- _ _. exact Hpos.
Qed.

(** The first test of the loop, on the byte count itself. *)
Lemma abs_lt_int (n D : Z) :
  D = 1000 \/ D = 1024 ->
  abs_lt (PyInt n) (of_Z D) = (Z.abs n <? D).
Proof.
  intros [-> | ->]; cbn [abs_lt].
  - replace (of_Z 1000) with (Fin false 8796093022208000 (-43))
      by (vm_compute; reflexivity).
    unfold Z_ltb, signed.
    change (2 ^ Z.max 0 (- -43)) with (2 ^ 43).
    change (2 ^ Z.max 0 (-43)) with 1.
    change (Z.of_N 8796093022208000) with (1000 * 2 ^ 43).
    assert (0 < 2 ^ 43) by (apply Z.pow_pos_nonneg; lia).
    destruct (Z.ltb_spec (Z.abs n * 2 ^ 43) (1000 * 2 ^ 43 * 1)),
             (Z.ltb_spec (Z.abs n) 1000); try reflexivity; nia.
  - replace (of_Z 1024) with (Fin false 4503599627370496 (-42))
      by (vm_compute; reflexivity).
    unfold Z_ltb, signed.
    change (2 ^ Z.max 0 (- -42)) with (2 ^ 42).
    change (2 ^ Z.max 0 (-42)) with 1.
    change (Z.of_N 4503599627370496) with (1024 * 2 ^ 42).
    assert (0 < 2 ^ 42) by (apply Z.pow_pos_nonneg; lia).
    destruct (Z.ltb_spec (Z.abs n * 2 ^ 42) (1024 * 2 ^ 42 * 1)),
             (Z.ltb_spec (Z.abs n) 1024); try reflexivity; nia.
Qed.

(** Beyond the range of floats an [int] does not convert. *)
Lemma to_float_overflow (n : Z) :
  float_overflow <= Z.abs n -> to_float n = Raised OverflowError.
Proof.
  intros H. unfold to_float.
  assert (Hp : forall k, float_overflow <= k -> of_Z k = Inf false).
  { intros k Hk.
    assert (H0 : 0 < float_overflow) by (vm_compute; reflexivity).
    pose proof (of_Z_mono float_overflow k H0 Hk) as Hle.
    replace (of_Z float_overflow) with (Inf false) in Hle
      by (vm_compute; reflexivity).
    rewrite of_Z_pos in * by lia.
    destruct (round_shape k 1 ltac:(lia) ltac:(lia)) as [E|(m & e & E)];
      [exact E | rewrite E in Hle; discriminate]. }
  assert (H0 : 0 < float_overflow) by (vm_compute; reflexivity).
  destruct (Z.lt_trichotomy n 0) as [Hn|[->|Hn]].
  - replace n with (- Z.abs n) by lia. rewrite of_Z_neg by lia.
    rewrite (Hp (Z.abs n) H). reflexivity.
  - simpl in H. lia.
  - rewrite (Hp n) by lia. reflexivity.
Qed.

Variables (order : float) (suffix : string).
Hypothesis order_nonzero : is_zero order = false.

(** Once the number is a float, or an [int] that converts, the loop
    returns a string. *)
Lemma loop_returns (ps : list string) :
  forall num, as_float num = Returned (float_of num) ->
    exists s, format_byte_size_loop num ps order suffix = Returned s.
Proof.
  induction ps as [|p ps IH]; intros num Hc; cbn [format_byte_size_loop].
  - unfold format_f2. rewrite Hc. cbn [bind]. eauto.
  - destruct (abs_lt num order).
    + unfold format_f2. rewrite Hc. cbn [bind]. eauto.
    + unfold truediv. rewrite Hc, order_nonzero. cbn [bind].
      apply IH. reflexivity.
Qed.

(** The loop in closed form. *)
Lemma loop_index (ps : list string) :
  forall num, as_float num = Returned (float_of num) ->
    format_byte_size_loop num ps order suffix =
      Returned (two_decimals (scaled num order (first_below num order (List.length ps)))
                ++ nth (first_below num order (List.length ps)) (ps ++ ["Y"])%list ""
                ++ suffix).
Proof.
  induction ps as [|p ps IH]; intros num Hc;
    cbn [format_byte_size_loop List.length first_below].
  - unfold format_f2. rewrite Hc. reflexivity.
  - destruct (abs_lt num order).
    + unfold format_f2. rewrite Hc. cbn [bind scaled nth app].
      now rewrite format_f2_width3.
    + unfold truediv. rewrite Hc, order_nonzero. cbn [bind].
      rewrite IH by reflexivity. reflexivity.
Qed.

End FormatMore.

(** X12.  With a valid unit convention, [format_byte_size] returns a
    string exactly for the byte counts whose magnitude is below
    [2^1024 - 2^970]; from there on it raises [OverflowError], the byte
    count being too large an [int] to divide by a float. *)
Theorem format_byte_size_returns_iff (byte_size : Z) (units : string)
    (order : Z) (suffix : string) :
  unit_convention units order suffix ->
  ((exists s, format_byte_size byte_size (Some units) = Returned s) <->
   Z.abs byte_size < float_overflow) /\
  (float_overflow <= Z.abs byte_size ->
   format_byte_size byte_size (Some units) = Raised OverflowError).
Proof.
  intros Hu.
  destruct (format_byte_size_unfold byte_size units order suffix Hu)
    as (-> & Hz & HD).
  assert (Hover : float_overflow <= Z.abs byte_size ->
            format_byte_size_loop (PyInt byte_size) prefixes (F64.of_Z order)
              suffix = Raised OverflowError).
  { intros H. unfold prefixes. cbn [format_byte_size_loop].
    rewrite (abs_lt_int byte_size order HD).
    assert (Hb : 1024 < float_overflow) by (vm_compute; reflexivity).
    replace (Z.abs byte_size <? order) with false
      by (symmetry; apply Z.ltb_ge; destruct HD; lia).
    unfold truediv. cbn [as_float]. now rewrite (to_float_overflow _ H). }
  split; [| exact Hover]. split.
  - intros [s Hs].
    destruct (Z.lt_ge_cases (Z.abs byte_size) float_overflow) as [|Hge];
      [assumption |].
    rewrite (Hover Hge) in Hs. discriminate.
  - intros H. apply loop_returns; [exact Hz |].
    apply to_float_in_range. exact H.
Qed.

Lemma format_byte_size_returns_iff_witness :
  format_byte_size (- 2 ^ 1030) (Some "binary") = Raised OverflowError.
Proof.
  refine (proj2 (format_byte_size_returns_iff (- 2 ^ 1030) "binary" 1024 "iB" _) _).
  - right. repeat split.
  - vm_compute. discriminate.
Defined.

(** X13.  A byte count below the divisor is written as it is, with two
    zeros for decimals, no prefix and the suffix of the convention: no
    rounding takes place. *)
Theorem format_byte_size_small (byte_size : Z) (units : string) (order : Z)
    (suffix : string) :
  unit_convention units order suffix ->
  Z.abs byte_size < order ->
  format_byte_size byte_size (Some units) =
    Returned ((if byte_size <? 0 then "-" else "")
              ++ F64.decimal (Z.abs byte_size) ++ ".00" ++ suffix).
Proof.
  intros Hu Hn.
  destruct (format_byte_size_unfold byte_size units order suffix Hu)
    as (-> & Hz & HD).
  unfold prefixes. cbn [format_byte_size_loop].
  rewrite (abs_lt_int byte_size order HD).
  replace (Z.abs byte_size <? order) with true
    by (symmetry; apply Z.ltb_lt; exact Hn).
  assert (Hb : 1024 < float_overflow) by (vm_compute; reflexivity).
  unfold format_f2. cbn [as_float].
  rewrite to_float_in_range by (destruct HD; lia). cbn [bind].
  rewrite format_f2_width3, fixed2_of_Z.
  - cbn [append]. now rewrite !append_assoc.
  - assert (1024 < 2 ^ 53) by reflexivity. destruct HD; lia.
Qed.

Lemma format_byte_size_small_witness :
  format_byte_size (-512) (Some "binary") =
    Returned ((if -512 <? 0 then "-" else "")
              ++ F64.decimal (Z.abs (-512)) ++ ".00" ++ "iB").
Proof.
  apply (format_byte_size_small (-512) "binary" 1024 "iB").
  - right. repeat split.
  - reflexivity.
Defined.

(** X14.  For every byte count that converts to a float,
    [format_byte_size] returns the byte count divided [i] times, written
    with two decimals, under the prefix of index [i] in the ladder '', K,
    M, G, T, P, E, Z, Y, where [i] is [prefix_index], the number of
    divisions made; it never goes past Y. *)
Theorem format_byte_size_closed_form (byte_size : Z) (units : string)
    (order : Z) (suffix : string) :
  unit_convention units order suffix ->
  Z.abs byte_size < float_overflow ->
  format_byte_size byte_size (Some units) =
    Returned (two_decimals (scaled (PyInt byte_size) (F64.of_Z order)
                              (prefix_index byte_size order))
              ++ nth (prefix_index byte_size order)
                     [""; "K"; "M"; "G"; "T"; "P"; "E"; "Z"; "Y"] ""
              ++ suffix) /\
  (prefix_index byte_size order <= 8)%nat.
Proof.
  intros Hu Hr.
  destruct (format_byte_size_unfold byte_size units order suffix Hu)
    as (-> & Hz & HD).
  split.
  - apply (loop_index (F64.of_Z order) suffix Hz prefixes).
    apply to_float_in_range. exact Hr.
  - unfold prefix_index. generalize (PyInt byte_size). generalize 8%nat.
    induction n as [|n IH]; intros num; cbn [first_below]; [lia |].
    destruct (abs_lt num (F64.of_Z order)); [lia |].
    specialize (IH (PyFloat (F64.div (float_of num) (F64.of_Z order)))). lia.
Qed.

Lemma format_byte_size_closed_form_witness :
  format_byte_size 5000000 (Some "SI") =
    Returned (two_decimals (scaled (PyInt 5000000) (F64.of_Z 1000)
                              (prefix_index 5000000 1000))
              ++ nth (prefix_index 5000000 1000)
                     [""; "K"; "M"; "G"; "T"; "P"; "E"; "Z"; "Y"] ""
              ++ "B") /\
  (prefix_index 5000000 1000 <= 8)%nat.
Proof.
  apply (format_byte_size_closed_form 5000000 "SI" 1000 "B").
  - left. repeat split.
  - vm_compute. reflexivity.
Defined.

Section FormatSign.

Import F64.

Variables (md : N) (ed : Z) (suffix : string).
Hypothesis md_pos : (0 < md)%N.

Lemma abs_opp (x : float) : abs (opp x) = abs x.
Proof. destruct x; reflexivity. Qed.

Lemma div_opp (x : float) :
  sign_positive x = true ->
  div (opp x) (Fin false md ed) = opp (div x (Fin false md ed)) /\
  sign_positive (div x (Fin false md ed)) = true.
Proof.
  destruct x as [|[]|[] mx ex]; try discriminate; intros _.
  - split; reflexivity.
  - cbn [opp negb div xorb].
    replace (md =? 0)%N with false by (symmetry; apply N.eqb_neq; lia).
    destruct (N.eqb_spec mx 0) as [->|Hx]; [split; reflexivity |].
    rewrite round_sign.
    assert (Ha : 0 < Z.of_N mx * 2 ^ Z.max 0 (ex - ed)).
    { assert (0 < 2 ^ Z.max 0 (ex - ed)) by (apply Z.pow_pos_nonneg; lia).
      nia. }
    assert (Hb : 0 < Z.of_N md * 2 ^ Z.max 0 (ed - ex)).
    { assert (0 < 2 ^ Z.max 0 (ed - ex)) by (apply Z.pow_pos_nonneg; lia).
      nia. }
    destruct (round_shape _ _ Ha Hb) as [->|(m & e & ->)]; split; reflexivity.
Qed.

Lemma fixed2_opp (x : float) :
  sign_positive x = true -> fixed2 (opp x) = "-" ++ fixed2 x.
Proof. destruct x as [|[]|[] m e]; try discriminate; reflexivity. Qed.

(** The loop on a number and on its opposite. *)
Lemma loop_opp (ps : list string) :
  forall (num num' : pynum) (x : float),
    as_float num = Returned x -> as_float num' = Returned (opp x) ->
    sign_positive x = true ->
    abs_lt num' (Fin false md ed) = abs_lt num (Fin false md ed) ->
    exists s,
      format_byte_size_loop num ps (Fin false md ed) suffix = Returned s /\
      format_byte_size_loop num' ps (Fin false md ed) suffix =
        Returned ("-" ++ s).
Proof.
  assert (Hz : is_zero (Fin false md ed) = false)
    by (destruct md; [lia | reflexivity]).
  induction ps as [|p ps IH]; intros num num' x Hc Hc' Hx Hlt;
    cbn [format_byte_size_loop].
  - unfold format_f2. rewrite Hc, Hc'. cbn [bind].
    rewrite !format_f2_width0, fixed2_opp by exact Hx.
    eexists. split; reflexivity.
  - rewrite Hlt. destruct (abs_lt num (Fin false md ed)).
    + unfold format_f2. rewrite Hc, Hc'. cbn [bind].
      rewrite !format_f2_width3, fixed2_opp by exact Hx.
      eexists. split; reflexivity.
    + unfold truediv. rewrite Hc, Hc', Hz. cbn [bind].
      destruct (div_opp x Hx) as [E Hx']. rewrite E.
      apply (IH _ _ (div x (Fin false md ed))); try reflexivity;
        [exact Hx' |].
      cbn [abs_lt]. now rewrite abs_opp.
Qed.

End FormatSign.

(** X15.  A negative byte count is formatted as its opposite is, with a
    minus sign in front. *)
Theorem format_byte_size_negative (byte_size : Z) (units : string)
    (order : Z) (suffix : string) :
  unit_convention units order suffix ->
  0 < byte_size < float_overflow ->
  exists s,
    format_byte_size byte_size (Some units) = Returned s /\
    format_byte_size (- byte_size) (Some units) = Returned ("-" ++ s).
Proof.
  intros Hu [Hp Hr].
  destruct (format_byte_size_unfold byte_size units order suffix Hu)
    as (-> & _ & HD).
  destruct (format_byte_size_unfold (- byte_size) units order suffix Hu)
    as (-> & _ & _).
  assert (Hd : exists md ed, F64.of_Z order = F64.Fin false md ed /\ (0 < md)%N).
  { destruct HD as [-> | ->]; do 2 eexists;
      (split; [vm_compute; reflexivity | reflexivity]). }
  destruct Hd as (md & ed & Ed & Hmd).
  pose proof (abs_lt_int byte_size order HD) as H1.
  pose proof (abs_lt_int (- byte_size) order HD) as H2.
  rewrite Z.abs_opp, <- H1 in H2. rewrite Ed in *.
  apply (loop_opp md ed suffix Hmd prefixes _ _ (F64.of_Z byte_size)).
  - apply to_float_in_range. lia.
  - cbn [as_float]. rewrite to_float_in_range by (rewrite Z.abs_opp; lia).
    now rewrite of_Z_neg.
  - rewrite of_Z_pos by exact Hp.
    destruct (round_shape byte_size 1 Hp ltac:(lia)) as [->|(m & e & ->)];
      reflexivity.
  - exact H2.
Qed.

Lemma format_byte_size_negative_witness :
  exists s,
    format_byte_size 123456789 (Some "SI") = Returned s /\
    format_byte_size (- 123456789) (Some "SI") = Returned ("-" ++ s).
Proof.
  apply (format_byte_size_negative 123456789 "SI" 1000 "B").
  - left. repeat split.
  - split; vm_compute; reflexivity.
Defined.

Section PrefixOrder.

Import F64.

Lemma ltb_leb_trans (x y z : float) :
  leb x y = true -> ltb y z = true -> ltb x z = true.
Proof.
  unfold leb, ltb.
  destruct x as [|sx|sx mx ex], y as [|sy|sy my ey], z as [|sz|sz mz ez].
  all: try solve [cbn; intros H1 H2; try reflexivity;
                  try discriminate H1; discriminate H2].
  all: try solve [destruct sx; destruct sy; destruct sz; cbn; intros H1 H2;
                  try reflexivity; try discriminate H1; discriminate H2].
  all: try solve [destruct sx; destruct sz; cbn; intros H1 H2;
                  try reflexivity; try discriminate H1; discriminate H2].
  all: try solve [destruct sy; destruct sz; cbn; intros H1 H2;
                  try reflexivity; try discriminate H1; discriminate H2].
  all: try solve [destruct sx; destruct sy; cbn; intros H1 H2;
                  try reflexivity; try discriminate H1; discriminate H2].
  all: try solve [destruct sx; cbn; intros H1 H2;
                  try reflexivity; try discriminate H1; discriminate H2].
  all: try solve [destruct sy; cbn; intros H1 H2;
                  try reflexivity; try discriminate H1; discriminate H2].
  all: try solve [destruct sz; cbn; intros H1 H2;
                  try reflexivity; try discriminate H1; discriminate H2].
  set (e0 := Z.min ex (Z.min ey ez)).
  rewrite (compare_Fin_at sx mx ex sy my ey e0) by (unfold e0; lia).
  rewrite (compare_Fin_at sy my ey sz mz ez e0) by (unfold e0; lia).
  rewrite (compare_Fin_at sx mx ex sz mz ez e0) by (unfold e0; lia).
  destruct (Z.compare_spec (signed sx mx * 2 ^ (ex - e0))
                           (signed sy my * 2 ^ (ey - e0)));
    try discriminate;
    destruct (Z.compare_spec (signed sy my * 2 ^ (ey - e0))
                             (signed sz mz * 2 ^ (ez - e0)));
    try discriminate;
    destruct (Z.compare_spec (signed sx mx * 2 ^ (ex - e0))
                             (signed sz mz * 2 ^ (ez - e0)));
    try reflexivity; lia.
Qed.

(** A float between two positive floats is one. *)
Lemma between_positive (lo hi x : float) :
  positive_finite lo = true -> positive_finite hi = true ->
  leb lo x = true -> leb x hi = true -> positive_finite x = true.
Proof.
  destruct lo as [|?|[] ml el]; try discriminate.
  destruct hi as [|?|[] mh eh]; try discriminate.
  cbn [positive_finite]. intros Hl _ H1 H2.
  apply negb_true_iff, N.eqb_neq in Hl.
  destruct x as [|[]|s m e]; try discriminate.
  unfold leb in H1.
  rewrite (compare_Fin_at false ml el s m e (Z.min el e)) in H1 by lia.
  assert (0 < 2 ^ (el - Z.min el e)) by (apply Z.pow_pos_nonneg; lia).
  assert (0 < 2 ^ (e - Z.min el e)) by (apply Z.pow_pos_nonneg; lia).
  assert (Hle : signed false ml * 2 ^ (el - Z.min el e)
                <= signed s m * 2 ^ (e - Z.min el e)).
  { destruct (Z.compare_spec (signed false ml * 2 ^ (el - Z.min el e))
                             (signed s m * 2 ^ (e - Z.min el e)));
      try discriminate; lia. }
  unfold signed in Hle. destruct s.
  - nia.
  - cbn [positive_finite]. apply negb_true_iff, N.eqb_neq. nia.
Qed.

Variables (md : N) (ed : Z).
Hypothesis md_pos : (0 < md)%N.

(** A number between two others stays between them under repeated
    division, as long as the two stay positive floats. *)
Lemma shrink_between (lo hi x : float) (K : nat) :
  leb lo x = true -> leb x hi = true ->
  (forall k, (k < K)%nat ->
     positive_finite (Nat.iter k (fun y => div y (Fin false md ed)) lo) = true) ->
  (forall k, (k < K)%nat ->
     positive_finite (Nat.iter k (fun y => div y (Fin false md ed)) hi) = true) ->
  forall k, (k <= K)%nat ->
    leb (Nat.iter k (fun y => div y (Fin false md ed)) lo)
        (Nat.iter k (fun y => div y (Fin false md ed)) x) = true /\
    leb (Nat.iter k (fun y => div y (Fin false md ed)) x)
        (Nat.iter k (fun y => div y (Fin false md ed)) hi) = true.
Proof.
  intros Hl Hh Plo Phi. induction k as [|k IH]; intros Hk; [auto |].
  destruct (IH ltac:(lia)) as [H1 H2].
  rewrite !Nat.iter_succ. split; apply div_mono; try assumption.
  - apply Plo. lia.
  - apply (between_positive _ _ _ (Plo k ltac:(lia)) (Phi k ltac:(lia)) H1 H2).
Qed.

End PrefixOrder.

Section PrefixIndex.

Import F64.

Variable order : float.

Lemma first_below_bound (k : nat) :
  forall num, (first_below num order k <= k)%nat.
Proof.
  induction k as [|k IH]; intros num; cbn [first_below]; [lia |].
  destruct (abs_lt num order); [lia |].
  specialize (IH (PyFloat (div (float_of num) order))). lia.
Qed.

(** The index is the first at which the scaled number is below [order]. *)
Lemma first_below_le (k : nat) :
  forall num i, abs_lt (scaled num order i) order = true ->
    (first_below num order k <= i)%nat.
Proof.
  induction k as [|k IH]; intros num i Hi; cbn [first_below]; [lia |].
  destruct (abs_lt num order) eqn:E; [lia |].
  destruct i as [|i]; [cbn [scaled] in Hi; congruence |].
  cbn [scaled] in Hi. specialize (IH _ _ Hi). lia.
Qed.

Lemma first_below_hit (k : nat) :
  forall num, (first_below num order k < k)%nat ->
    abs_lt (scaled num order (first_below num order k)) order = true.
Proof.
  induction k as [|k IH]; intros num; cbn [first_below]; [lia |].
  destruct (abs_lt num order) eqn:E; [intros _; exact E |].
  intros H. cbn [scaled]. apply IH. lia.
Qed.

End PrefixIndex.

Section PrefixMonotone.

Import F64.

(** Of two byte counts, the lesser is below the divisor after as many
    divisions as the greater is. *)
Lemma below_mono (D n1 n2 : Z) (i : nat) :
  D = 1000 \/ D = 1024 ->
  0 < Z.abs n1 <= Z.abs n2 -> Z.abs n2 < float_overflow -> (i <= 8)%nat ->
  abs_lt (scaled (PyInt n2) (of_Z D) i) (of_Z D) = true ->
  abs_lt (scaled (PyInt n1) (of_Z D) i) (of_Z D) = true.
Proof.
  intros HD [H1 H12] H2 Hi.
  destruct i as [|j].
  { cbn [scaled]. rewrite !(abs_lt_int _ D HD).
    intros H. apply Z.ltb_lt in H. apply Z.ltb_lt. lia. }
  assert (Hd : exists md ed, of_Z D = Fin false md ed /\ (0 < md)%N /\
            forallb positive_finite (ladder (Fin false md ed) (of_Z 1) 8)
            && forallb positive_finite
                 (ladder (Fin false md ed) (of_Z (float_overflow - 1)) 8) = true).
  { destruct HD as [-> | ->]; do 2 eexists;
      (split; [vm_compute; reflexivity |
               split; [reflexivity | vm_compute; reflexivity]]). }
  destruct Hd as (md & ed & Ed & Hmd & Hall).
  apply andb_true_iff in Hall. destruct Hall as [Hlo Hhi].
  rewrite forallb_forall in Hlo, Hhi.
  assert (Plo : forall k, (k < 8)%nat ->
            positive_finite
              (Nat.iter k (fun y => div y (Fin false md ed)) (of_Z 1)) = true).
  { intros k Hk. rewrite <- (ladder_nth (Fin false md ed) 8 k) by exact Hk.
    apply Hlo, nth_In. rewrite ladder_length. exact Hk. }
  assert (Phi : forall k, (k < 8)%nat ->
            positive_finite
              (Nat.iter k (fun y => div y (Fin false md ed))
                 (of_Z (float_overflow - 1))) = true).
  { intros k Hk. rewrite <- (ladder_nth (Fin false md ed) 8 k) by exact Hk.
    apply Hhi, nth_In. rewrite ladder_length. exact Hk. }
  rewrite Ed, !scaled_int. cbn [abs_lt].
  rewrite !(abs_shrink md ed Hmd), !abs_of_Z.
  apply ltb_leb_trans.
  apply (shrink_mono md ed Hmd _ _ 8%nat); [apply of_Z_mono; lia | | exact Hi].
  intros k Hk.
  destruct (shrink_between md ed Hmd (of_Z 1) (of_Z (float_overflow - 1))
              (of_Z (Z.abs n1)) 8%nat) with (k := k) as [B1 B2];
    try assumption; try lia.
  - apply of_Z_mono; lia.
  - apply of_Z_mono; lia.
  - apply (between_positive _ _ _ (Plo k Hk) (Phi k Hk) B1 B2).
Qed.

End PrefixMonotone.

(** X16.  The prefix follows the size: of two byte counts that convert to
    a float, the one of lesser magnitude is never written under a later
    prefix of the ladder than the other. *)
Theorem prefix_index_monotone (order n1 n2 : Z) :
  order = 1000 \/ order = 1024 ->
  Z.abs n1 <= Z.abs n2 -> Z.abs n2 < float_overflow ->
  (prefix_index n1 order <= prefix_index n2 order)%nat.
Proof.
  intros HD H12 H2. unfold prefix_index.
  destruct (Z.eq_dec (Z.abs n1) 0) as [E0|N0].
  - cbn [first_below]. rewrite (abs_lt_int n1 order HD), E0.
    replace (0 <? order) with true by (destruct HD as [-> | ->]; reflexivity).
    lia.
  - pose proof (first_below_bound (F64.of_Z order) 8 (PyInt n2)) as Hb.
    destruct (Nat.eq_dec (first_below (PyInt n2) (F64.of_Z order) 8) 8)
      as [E8|N8].
    + rewrite E8. apply first_below_bound.
    + apply first_below_le.
      apply (below_mono order n1 n2); try assumption; try lia.
      apply first_below_hit. lia.
Qed.

Lemma prefix_index_monotone_witness :
  (prefix_index 999999 1000 <= prefix_index (-1000000) 1000)%nat.
Proof.
  apply (prefix_index_monotone 1000 999999 (-1000000)).
  - left. reflexivity.
  - vm_compute. discriminate.
  - vm_compute. reflexivity.
Defined.

(** ** utils.py: [get_thread_max_workers], further *)

(** X17.  [get_thread_max_workers] checks nothing but the sentinel: with a
    multiplier of 1 or more, a positive [n_jobs] gets [n_jobs] workers at
    least, and an [n_jobs] of 0 or below -1 is not rejected but gives a
    pool size of 0 or less. *)
Theorem get_thread_max_workers_unchecked (n_jobs workers_per_thread : Z) :
  1 <= workers_per_thread -> n_jobs <> -1 ->
  exists p,
    get_thread_max_workers (Some n_jobs) (Some workers_per_thread) = Some p /\
    (1 <= n_jobs -> n_jobs <= p /\ workers_per_thread <= p) /\
    (n_jobs <= 0 -> p <= 0).
Proof.
  intros Hw Hn. unfold get_thread_max_workers.
  replace (n_jobs =? -1) with false by (symmetry; apply Z.eqb_neq; exact Hn).
  cbn [negb]. eexists. split; [reflexivity |]. split; intros H; nia.
Qed.

Lemma get_thread_max_workers_unchecked_witness :
  exists p,
    get_thread_max_workers (Some (-2)) (Some 5) = Some p /\
    (1 <= -2 -> -2 <= p /\ 5 <= p) /\
    (-2 <= 0 -> p <= 0).
Proof. apply (get_thread_max_workers_unchecked (-2) 5); lia. Defined.
